(** * The signaling session of netlib ([src/lib/signaling.ts])

    A shallow embedding of the class [Signaling]: its fields, the web
    sockets and timers it creates, the collaborators it calls, and its
    methods [connect], [reconnect], [close], [send], [event] and
    [handleSignalingMessage], followed by the properties of the
    specification that concern them. *)

From stdpp Require Import base option list gmap strings.
From Stdlib Require Import ZArith Lia.

Local Open Scope string_scope.
Local Open Scope list_scope.
Local Open Scope Z_scope.

(** ** Packets *)

(** Modelled from the spec: the union [SignalingPacketTypes] of [./types],
    which is imported by the source but is not part of it. One constructor
    per variant of the data model, [type] being the discriminant on the
    wire; the negotiation and credential payloads are opaque text. *)
Inductive SignalingPacketTypes : Type :=
| HelloPacket (game : string) (id : option string)
| EventPacket (game : string) (lobby : option string) (peer : string)
    (category action : string) (data : option string)
| ErrorPacket (error : string)
| WelcomePacket (id : string)
| JoinedPacket (lobby : string)
| ConnectPacket (id : string) (polite : bool)
| DisconnectPacket (id : string)
| CandidatePacket (source : string) (candidate : string)
| DescriptionPacket (source : string) (description : string)
| CredentialsPacket (credentials : string).

(** [packet.type] *)
Definition packet_type (p : SignalingPacketTypes) : string :=
  match p with
  | HelloPacket _ _ => "hello"
  | EventPacket _ _ _ _ _ _ => "event"
  | ErrorPacket _ => "error"
  | WelcomePacket _ => "welcome"
  | JoinedPacket _ => "joined"
  | ConnectPacket _ _ => "connect"
  | DisconnectPacket _ => "disconnect"
  | CandidatePacket _ _ => "candidate"
  | DescriptionPacket _ _ => "description"
  | CredentialsPacket _ => "credentials"
  end.

(** The discriminants of the union. *)
Definition discriminants : list string :=
  ["hello"; "event"; "error"; "welcome"; "joined"; "connect"; "disconnect";
   "candidate"; "description"; "credentials"].

(** Whether the [type] property of a value (absent: [None]) is one of the
    discriminants. *)
Definition is_discriminant (t : option string) : bool :=
  match t with
  | Some t => bool_decide (t ∈ discriminants)
  | None => false
  end.

(** What [JSON.parse(data) as SignalingPacketTypes] (line 109) makes of a
    text frame. [JSON.parse] belongs to the platform; the cast is unchecked,
    so that besides the packets of the union any other JSON value reaches
    the [switch]. A value whose [type] is one of the discriminants is taken
    to carry the fields the union declares for it, which is what the cast
    assumes. *)
Inductive Frame : Type :=
| Malformed (reason : string)
    (** not JSON text: [JSON.parse] throws a [SyntaxError] *)
| Null
    (** the JSON text [null]: reading [packet.type] throws a [TypeError] *)
| Foreign (type : option string) (H : is_discriminant type = false)
    (** any other JSON value outside the union; [type] is its [type]
        property when it is a string, and [None] for a number, a string, an
        array, or an object without one *)
| Packet (p : SignalingPacketTypes).

(** ** Errors, events and calls *)

(** Thrown values, by their message. *)
Definition Exn : Type := string.

(** A DOM [Event], as far as [SignalingError] keeps it. *)
Inductive DomEvent : Type := ErrorEvent (detail : string).

Inductive SignalingErrorType : Type := unknown_error | socket_error | server_error.

(** [class SignalingError] *)
Record SignalingError : Type := mkSignalingError {
  etype : SignalingErrorType;
  message : string;
  dom_event : option DomEvent  (** the optional [event] *)
}.

(** The events of [this.network.emit]. *)
Inductive NetworkEvent : Type :=
| signalingerror (e : SignalingError)
| failed
| ready
| signalingreconnected
| lobby (l : string).

(** Calls into the collaborators that can fail: [network._addPeer],
    [peer._onSignalingMessage] and [peer.close], the peer being named by
    its key in [connections]. *)
Inductive Call : Type :=
| AddPeer (id : string) (polite : bool)
| OnSignalingMessage (peer : string) (p : SignalingPacketTypes)
| PeerClose (peer : string).

(** Callbacks handed to [setTimeout]. *)
Inductive Timer : Type :=
| ConnectTimer (maxDelay : Z)
    (** [this.ws = this.connect()], after [Math.random() * maxDelay] ms *)
| EventTimer (category action : string) (data : option string).
    (** the deferred [send] of [event], after 0 ms *)

(** Everything a method does that is visible outside the session. *)
Inductive Effect : Type :=
| NetworkEmit (ev : NetworkEvent)          (** [this.network.emit(...)] *)
| Emit_credentials (p : SignalingPacketTypes) (** [this.emit('credentials', _)] *)
| ConsoleError (e : SignalingError)        (** [console.error(...)] *)
| NetworkLog (args : list (option string)) (** [this.network.log(...)], [None] being [undefined] *)
| PrefetchTURNCredentials                  (** [network._prefetchTURNCredentials()] *)
| Invoke (c : Call)
| WsNew (w : nat)                          (** [new WebSocket(this.url)] *)
| WsSend (w : nat) (p : SignalingPacketTypes) (** [ws.send(JSON.stringify(p))] *)
| WsClose (w : nat)                        (** [ws.close()] *)
| SetTimeout (t : Timer).

(** ** State *)

Inductive ReadyState : Type := CONNECTING | OPEN | CLOSING | CLOSED.

#[global] Instance ReadyState_eq_dec : EqDecision ReadyState.
Proof. solve_decision. Defined.

(** A [WebSocket]: its [readyState], and whether the four listeners of
    [connect] are attached to it. *)
Record WebSocket : Type := mkWebSocket {
  readyState : ReadyState;
  listening : bool
}.

(** Modelled from the spec: a [Peer] of [./peer] (not part of the source),
    as far as the session is concerned: the politeness role it was
    registered with. *)
Record Peer : Type := mkPeer { peer_polite : bool }.

(** What the session reads from [this.network]. *)
Record Network : Type := mkNetwork {
  gameID : string;
  network_id : string;
  closing : bool;
  listenerCount_signalingerror : nat
}.

(** The fields of [Signaling], the registry [connections] it shares with
    the network, and the sockets and timers it has created. *)
Record State : Type := mkState {
  ws : nat;
  reconnectAttempt : Z;
  reconnecting : bool;
  receivedID : option string;
  currentLobby : option string;
  connections : gmap string Peer;
  replayQueue : gmap string (list SignalingPacketTypes);
  network : Network;
  sockets : list WebSocket;
  timers : list Timer
}.

Definition set_ws (w : nat) (s : State) : State :=
  mkState w (reconnectAttempt s) (reconnecting s) (receivedID s) (currentLobby s)
    (connections s) (replayQueue s) (network s) (sockets s) (timers s).
Definition set_reconnectAttempt (n : Z) (s : State) : State :=
  mkState (ws s) n (reconnecting s) (receivedID s) (currentLobby s)
    (connections s) (replayQueue s) (network s) (sockets s) (timers s).
Definition set_reconnecting (b : bool) (s : State) : State :=
  mkState (ws s) (reconnectAttempt s) b (receivedID s) (currentLobby s)
    (connections s) (replayQueue s) (network s) (sockets s) (timers s).
Definition set_receivedID (i : option string) (s : State) : State :=
  mkState (ws s) (reconnectAttempt s) (reconnecting s) i (currentLobby s)
    (connections s) (replayQueue s) (network s) (sockets s) (timers s).
Definition set_currentLobby (l : option string) (s : State) : State :=
  mkState (ws s) (reconnectAttempt s) (reconnecting s) (receivedID s) l
    (connections s) (replayQueue s) (network s) (sockets s) (timers s).
Definition set_connections (c : gmap string Peer) (s : State) : State :=
  mkState (ws s) (reconnectAttempt s) (reconnecting s) (receivedID s) (currentLobby s)
    c (replayQueue s) (network s) (sockets s) (timers s).
Definition set_replayQueue (q : gmap string (list SignalingPacketTypes)) (s : State) : State :=
  mkState (ws s) (reconnectAttempt s) (reconnecting s) (receivedID s) (currentLobby s)
    (connections s) q (network s) (sockets s) (timers s).
Definition set_sockets (l : list WebSocket) (s : State) : State :=
  mkState (ws s) (reconnectAttempt s) (reconnecting s) (receivedID s) (currentLobby s)
    (connections s) (replayQueue s) (network s) l (timers s).
Definition set_timers (l : list Timer) (s : State) : State :=
  mkState (ws s) (reconnectAttempt s) (reconnecting s) (receivedID s) (currentLobby s)
    (connections s) (replayQueue s) (network s) (sockets s) l.

(** ** Methods as state transformers that log their effects and may throw *)

Inductive Outcome (A : Type) : Type :=
| Returned (a : A)
| Thrown (e : Exn).
Arguments Returned {A} a.
Arguments Thrown {A} e.

(** A run of a method: how it ended, the state it left, and its effects in
    the order they happened. What was written before a [throw] stays. *)
Definition M (A : Type) : Type := State → Outcome A * State * list Effect.

Definition ret {A} (a : A) : M A := λ s, (Returned a, s, []).

Definition bind {A B} (m : M A) (k : A → M B) : M B := λ s,
  match m s with
  | (Returned a, s1, e1) =>
      match k a s1 with (r, s2, e2) => (r, s2, e1 ++ e2) end
  | (Thrown x, s1, e1) => (Thrown x, s1, e1)
  end.

Definition throw {A} (x : Exn) : M A := λ s, (Thrown x, s, []).

(** [try { m } catch (e) { h e }] *)
Definition try_catch {A} (m : M A) (h : Exn → M A) : M A := λ s,
  match m s with
  | (Returned a, s1, e1) => (Returned a, s1, e1)
  | (Thrown x, s1, e1) =>
      match h x s1 with (r, s2, e2) => (r, s2, e1 ++ e2) end
  end.

Definition get {A} (f : State → A) : M A := λ s, (Returned (f s), s, []).
Definition modify (f : State → State) : M unit := λ s, (Returned tt, f s, []).
Definition tell (e : Effect) : M unit := λ s, (Returned tt, s, [e]).

Notation "'do' x <- m ; k" := (bind m (λ x, k))
  (at level 10, x name, m at level 100, k at level 200, only parsing).
Notation "m ;; k" := (bind m (λ _, k))
  (at level 100, right associativity, only parsing).

Definition when (b : bool) (m : M unit) : M unit := if b then m else ret tt.

(** [for (const x of l) { body x }] *)
Fixpoint for_of {A} (l : list A) (body : A → M unit) : M unit :=
  match l with
  | [] => ret tt
  | x :: l => body x;; for_of l body
  end.

(** ** The class [Signaling] *)

Section Signaling.

(** The collaborators' answer to a call: [Some e] when the call throws, or
    the promise it returns is rejected, with [e]. *)
Variable rejects : Call → option Exn.

Definition invoke (c : Call) : M unit :=
  tell (Invoke c);;
  match rejects c with
  | Some e => throw e
  | None => ret tt
  end.

(** Modelled from the spec: [network._addPeer(id, polite)] of [./network]
    (not part of the source) creates and registers a peer for [id] with the
    given politeness role, unless it fails. *)
Definition _addPeer (id : string) (polite : bool) : M unit :=
  invoke (AddPeer id polite);;
  modify (λ s, set_connections (<[id := mkPeer polite]> (connections s)) s).

Definition setTimeout (t : Timer) : M unit :=
  tell (SetTimeout t);;
  modify (λ s, set_timers (timers s ++ [t]) s).

(** [send] (lines 99-105) *)
Definition send (packet : SignalingPacketTypes) : M unit :=
  do w <- get ws;
  do sock <- get (λ s, sockets s !! w);
  match readyState <$> sock with
  | Some CONNECTING | Some OPEN =>
      tell (NetworkLog [Some "sending signaling packet:"; Some (packet_type packet)]);;
      tell (WsSend w packet)
  | _ => ret tt
  end.

(** [event] (lines 180-195): the promise executor runs at once and only
    arms the timer; the packet is built when the timer fires. *)
Definition event (category action : string) (data : option string) : M unit :=
  setTimeout (EventTimer category action data).

Definition event_callback (category action : string) (data : option string) : M unit :=
  do n <- get network;
  do l <- get currentLobby;
  send (EventPacket (gameID n) l (network_id n) category action data).

(** [connect] (lines 32-76): the new socket with its four listeners; the
    listeners themselves are [onOpen], [onError], [onMessage] and [onClose]
    below. *)
Definition connect : M nat :=
  do w <- get (λ s, length (sockets s));
  tell (WsNew w);;
  modify (λ s, set_sockets (sockets s ++ [mkWebSocket CONNECTING true]) s);;
  ret w.

(** the callback of the timer of [reconnect] (line 90) *)
Definition connect_callback : M unit :=
  do w <- connect;
  modify (set_ws w).

(** [reconnect] (lines 78-93) *)
Definition reconnect : M unit :=
  do r <- get reconnecting;
  do n <- get network;
  if r || closing n then ret tt
  else
    do a <- get reconnectAttempt;
    if 42 <? a then
      tell (NetworkEmit failed);;
      tell (NetworkEmit (signalingerror
        (mkSignalingError socket_error "giving up on reconnecting to signaling server" None)))
    else
      event "signaling" "attempt-reconnect" None;;
      modify (set_reconnecting true);;
      do a <- get reconnectAttempt;
      setTimeout (ConnectTimer (100 * a));;
      modify (λ s, set_reconnectAttempt (reconnectAttempt s + 1) s).

(** [onOpen] (lines 34-42) *)
Definition onOpen : M unit :=
  modify (set_reconnectAttempt 0);;
  modify (set_reconnecting false);;
  do n <- get network;
  do i <- get receivedID;
  send (HelloPacket (gameID n) i).

(** [onError] (lines 43-53), [ws] being the socket of the closure *)
Definition onError (ws : nat) (e : DomEvent) : M unit :=
  let error := mkSignalingError socket_error "unexpected websocket error" (Some e) in
  tell (NetworkEmit (signalingerror error));;
  do n <- get network;
  when (bool_decide (listenerCount_signalingerror n = 0%nat)) (tell (ConsoleError error));;
  do sock <- get (λ s, sockets s !! ws);
  when (bool_decide (readyState <$> sock = Some CLOSED))
    (modify (set_reconnecting false);;
     reconnect).

(** [onClose] (lines 57-70) *)
Definition onClose (ws : nat) : M unit :=
  do n <- get network;
  when (negb (closing n))
    (let error := mkSignalingError socket_error "signaling socket closed" None in
     tell (NetworkEmit (signalingerror error));;
     do n <- get network;
     when (bool_decide (listenerCount_signalingerror n = 0%nat)) (tell (ConsoleError error)));;
  modify (λ s, set_sockets (alter (λ k, mkWebSocket (readyState k) false) ws (sockets s)) s);;
  reconnect.

(** [close] (lines 95-97); a socket that is connecting or open starts its
    closing handshake. *)
Definition close : M unit :=
  do w <- get ws;
  tell (WsClose w);;
  modify (λ s, set_sockets
    (alter (λ k, match readyState k with
                 | CONNECTING | OPEN => mkWebSocket CLOSING (listening k)
                 | _ => k
                 end) w (sockets s)) s).

(** The body of the loop of lines 149-151: one buffered packet handed to
    the peer that [connections] holds for [id], if any. *)
Definition replay (id : string) (p : SignalingPacketTypes) : M unit :=
  do peer <- get (λ s, connections s !! id);
  match peer with
  | Some _ => invoke (OnSignalingMessage id p)
  | None => ret tt
  end.

(** The body of the [try] of [handleSignalingMessage] (lines 109-173),
    from its first statement to its last. A [return] inside the [switch]
    ends the method, as nothing follows the [switch]. The method is
    [async] and waits at lines 148, 150 and 163; [dispatch] is the handler
    of one frame when nothing else runs while it waits. [start] and
    [resume] below are the handler piece by piece, between two [await]s,
    with whatever the event loop runs in between. *)
Definition dispatch (data : Frame) : M unit :=
  match data with
  | Malformed reason => throw reason
  | Null => throw "TypeError: cannot read properties of null"
  | Foreign type _ =>
      tell (NetworkLog [Some "signaling packet received:"; type])
  | Packet packet =>
      tell (NetworkLog [Some "signaling packet received:"; Some (packet_type packet)]);;
      match packet with
      | ErrorPacket error =>
          let error := mkSignalingError server_error error None in
          tell (NetworkEmit (signalingerror error));;
          do n <- get network;
          when (bool_decide (listenerCount_signalingerror n = 0%nat)) (tell (ConsoleError error))
      | WelcomePacket id =>
          do r <- get receivedID;
          match r with
          | Some _ =>
              tell (NetworkLog [Some "signaling reconnected"]);;
              tell (NetworkEmit signalingreconnected)
          | None =>
              if decide (id = "") then throw "missing id on received welcome packet"
              else
                modify (set_receivedID (Some id));;
                tell (NetworkEmit ready);;
                tell PrefetchTURNCredentials
          end
      | JoinedPacket lobby_ =>
          if decide (lobby_ = "") then throw "missing lobby on received connect packet"
          else
            modify (set_currentLobby (Some lobby_));;
            tell (NetworkEmit (lobby lobby_))
      | ConnectPacket id polite =>
          do r <- get receivedID;
          if decide (r = Some id) then ret tt
          else
            _addPeer id polite;;
            do q <- get (λ s, default [] (replayQueue s !! id));
            for_of q (replay id);;
            modify (λ s, set_replayQueue (delete id (replayQueue s)) s)
      | DisconnectPacket id =>
          do peer <- get (λ s, connections s !! id);
          match peer with
          | Some _ => invoke (PeerClose id)
          | None => ret tt
          end
      | CandidatePacket source _ | DescriptionPacket source _ =>
          do peer <- get (λ s, connections s !! source);
          match peer with
          | Some _ => invoke (OnSignalingMessage source packet)
          | None =>
              do queue <- get (λ s, default [] (replayQueue s !! source));
              modify (λ s, set_replayQueue (<[source := queue ++ [packet]]> (replayQueue s)) s)
          end
      | CredentialsPacket _ => tell (Emit_credentials packet)
      | HelloPacket _ _ | EventPacket _ _ _ _ _ _ => ret tt
      end
  end.

(** [handleSignalingMessage] (lines 107-178) *)
Definition handleSignalingMessage (data : Frame) : M unit :=
  try_catch (dispatch data)
    (λ e,
      let error := mkSignalingError unknown_error e None in
      tell (NetworkEmit (signalingerror error))).

(** [onMessage] (lines 54-56) *)
Definition onMessage (data : Frame) : M unit :=
  try_catch (handleSignalingMessage data) (λ _, ret tt).

End Signaling.

(** ** The session among its sockets and timers *)

(** What happens to a session from outside: the events of its sockets and
    the expiry of its timers. The platform updates [readyState] before it
    calls a listener. *)
Inductive Input : Type :=
| Open (w : nat)
| Error (w : nat) (e : DomEvent) (rs : ReadyState)
| Message (w : nat) (data : Frame)
| Close (w : nat)
| Timeout (k : nat).

Section Session.

Variable rejects : Call → option Exn.

Definition set_readyState (w : nat) (rs : ReadyState) : M unit :=
  modify (λ s, set_sockets (alter (λ k, mkWebSocket rs (listening k)) w (sockets s)) s).

(** An event of socket [w] reaches its listener while [connect]'s
    listeners are attached. *)
Definition fire (w : nat) (listener : M unit) : M unit :=
  do sock <- get (λ s, sockets s !! w);
  match sock with
  | Some k => if listening k then listener else ret tt
  | None => ret tt
  end.

(** One event of the transport. The handler of a frame is run from its
    first statement to its last, as when nothing happens while it waits;
    [async_step] below takes the handlers apart at their [await]s. *)
Definition step (i : Input) : M unit :=
  match i with
  | Open w => set_readyState w OPEN;; fire w onOpen
  | Error w e rs => set_readyState w rs;; fire w (onError w e)
  | Message w data => fire w (onMessage rejects data)
  | Close w => set_readyState w CLOSED;; fire w (onClose w)
  | Timeout k =>
      do t <- get (λ s, timers s !! k);
      match t with
      | Some t =>
          modify (λ s, set_timers (delete k (timers s)) s);;
          match t with
          | ConnectTimer _ => connect_callback
          | EventTimer category action data => event_callback category action data
          end
      | None => ret tt
      end
  end.

Definition run (l : list Input) : M unit := for_of l step.

(** The frames of [l] dispatched one after the other, the handler of each
    running to its end before the next frame is dispatched. *)
Definition dispatch_all (l : list Frame) : M unit :=
  for_of l (handleSignalingMessage rejects).

End Session.

(** [constructor] (lines 22-30) *)
Definition new_Signaling (network : Network) (peers : gmap string Peer) : State * list Effect :=
  match connect_callback (mkState 0 0 false None None peers ∅ network [] []) with
  | (_, s, e) => (s, e)
  end.

(** ** Handlers that wait

    [onMessage] (line 55) does not wait for the promise of
    [handleSignalingMessage]: the handler of a frame that has reached an
    [await] is suspended, and the event loop goes on with other frames and
    other handlers until what it waits for settles. *)

(** A handler of [handleSignalingMessage] suspended at an [await]. *)
Inductive Suspended : Type :=
| AwaitAddPeer (id : string) (polite : bool)
    (* line 148: [_addPeer(id, polite)] has been called *)
| AwaitReplay (id : string) (p : option SignalingPacketTypes)
              (rest : list SignalingPacketTypes)
    (* line 150: [p] has been handed to the peer of [id] ([None] when
       [connections] has no peer for [id]); [rest] is what the loop has
       still to visit *)
| AwaitDelivery (source : string) (p : SignalingPacketTypes).
    (* line 163: [p] has been handed to the peer of [source] *)

(** What happens to the dispatcher: a frame arrives, or what the [n]-th
    suspended handler waits for settles. *)
Inductive Occurrence : Type :=
| Arrives (data : Frame)
| Settles (n : nat).

(** The session and its suspended handlers, oldest first. *)
Definition System : Type := State * list Suspended.

Section Async.

Variable rejects : Call → option Exn.

(** The [catch] of lines 174-177, around what a handler does between two
    [await]s. *)
Definition caught (m : M (option Suspended)) : M (option Suspended) :=
  try_catch m
    (λ e,
      let error := mkSignalingError unknown_error e None in
      tell (NetworkEmit (signalingerror error));;
      ret None).

(** What an [await] resumes with: the promise of call [c] is fulfilled, or
    it is rejected and its reason is thrown. A call that fails is taken to
    fail through its promise. *)
Definition awaited (c : Call) : M unit :=
  match rejects c with
  | Some e => throw e
  | None => ret tt
  end.

(** The loop of lines 149-151 from the packets [q] on, up to its next
    [await], and line 152 once the loop is over. The loop visits the array
    that is the queue entry of [id] when [_addPeer] has registered the
    peer. That array does not change while the loop runs: line 165 appends
    to it only while [connections] has no peer for [id], and the session
    removes no peer. *)
Definition replay_from (id : string) (q : list SignalingPacketTypes) : M (option Suspended) :=
  match q with
  | [] =>
      modify (λ s, set_replayQueue (delete id (replayQueue s)) s);;
      ret None
  | p :: rest =>
      do peer <- get (λ s, connections s !! id);
      match peer with
      | Some _ =>
          tell (Invoke (OnSignalingMessage id p));;
          ret (Some (AwaitReplay id (Some p) rest))
      | None => ret (Some (AwaitReplay id None rest))
      end
  end.

(** [handleSignalingMessage] from its first statement to its first
    [await], or to its end in the cases that have none. *)
Definition start (data : Frame) : M (option Suspended) :=
  caught
    match data with
    | Packet packet =>
        match packet with
        | ConnectPacket id polite =>
            tell (NetworkLog [Some "signaling packet received:"; Some (packet_type packet)]);;
            do r <- get receivedID;
            if decide (r = Some id) then ret None
            else
              tell (Invoke (AddPeer id polite));;
              ret (Some (AwaitAddPeer id polite))
        | CandidatePacket source _ | DescriptionPacket source _ =>
            tell (NetworkLog [Some "signaling packet received:"; Some (packet_type packet)]);;
            do peer <- get (λ s, connections s !! source);
            match peer with
            | Some _ =>
                tell (Invoke (OnSignalingMessage source packet));;
                ret (Some (AwaitDelivery source packet))
            | None =>
                do queue <- get (λ s, default [] (replayQueue s !! source));
                modify (λ s, set_replayQueue (<[source := queue ++ [packet]]> (replayQueue s)) s);;
                ret None
            end
        | _ => dispatch rejects data;; ret None
        end
    | _ => dispatch rejects data;; ret None
    end.

(** A suspended handler from the [await] it waits at to its next [await],
    or to its end. Modelled from the spec, as [_addPeer] above: the peer is
    in the registry when the promise of [_addPeer] is fulfilled. *)
Definition resume (k : Suspended) : M (option Suspended) :=
  caught
    match k with
    | AwaitAddPeer id polite =>
        awaited (AddPeer id polite);;
        modify (λ s, set_connections (<[id := mkPeer polite]> (connections s)) s);;
        do q <- get (λ s, default [] (replayQueue s !! id));
        replay_from id q
    | AwaitReplay id p rest =>
        match p with
        | Some p => awaited (OnSignalingMessage id p)
        | None => ret tt
        end;;
        replay_from id rest
    | AwaitDelivery source p =>
        awaited (OnSignalingMessage source p);;
        ret None
    end.

(** One turn of the dispatcher. A handler that reaches an [await] joins
    the suspended handlers, or stays among them; one that ends leaves
    them. *)
Definition async_step (o : Occurrence) (sys : System) : System * list Effect :=
  match o with
  | Arrives data =>
      match start data sys.1 with
      | (Returned (Some k), s, e) => ((s, sys.2 ++ [k]), e)
      | (_, s, e) => ((s, sys.2), e)
      end
  | Settles n =>
      match sys.2 !! n with
      | Some k =>
          match resume k sys.1 with
          | (Returned (Some k'), s, e) => ((s, <[n := k']> sys.2), e)
          | (_, s, e) => ((s, delete n sys.2), e)
          end
      | None => (sys, [])
      end
  end.

Fixpoint async_run (l : list Occurrence) (sys : System) : System * list Effect :=
  match l with
  | [] => (sys, [])
  | o :: l =>
      let '(sys1, e1) := async_step o sys in
      let '(sys2, e2) := async_run l sys1 in
      (sys2, e1 ++ e2)
  end.

(** The [await]s the replay loop passes on the queue [q] of a registered
    peer: one for each packet, up to the first the peer rejects. *)
Fixpoint loop_awaits (id : string) (q : list SignalingPacketTypes) : nat :=
  match q with
  | [] => 0
  | p :: rest =>
      S (match rejects (OnSignalingMessage id p) with
         | Some _ => 0
         | None => loop_awaits id rest
         end)
  end.

(** The [await]s the handler of a frame passes from state [s], when
    nothing else runs while it waits. *)
Definition awaits (data : Frame) (s : State) : nat :=
  match data with
  | Packet (ConnectPacket id polite) =>
      if decide (receivedID s = Some id) then 0
      else
        match rejects (AddPeer id polite) with
        | Some _ => 1
        | None => S (loop_awaits id (default [] (replayQueue s !! id)))
        end
  | Packet (CandidatePacket source _) | Packet (DescriptionPacket source _) =>
      match connections s !! source with
      | Some _ => 1
      | None => 0
      end
  | _ => 0
  end.

(** A frame arrives and its handler runs to its end before anything else
    happens. *)
Definition alone (data : Frame) (sys : System) : list Occurrence :=
  Arrives data :: replicate (awaits data sys.1) (Settles (length sys.2)).

(** The frames of [l] one at a time: the handler of each has finished
    when the next frame arrives. *)
Fixpoint one_at_a_time (l : list Frame) (sys : System) : System * list Effect :=
  match l with
  | [] => (sys, [])
  | data :: l =>
      let '(sys1, e1) := async_run (alone data sys) sys in
      let '(sys2, e2) := one_at_a_time l sys1 in
      (sys2, e1 ++ e2)
  end.

End Async.

(** ** Vocabulary of the properties *)

Definition outcome_of {A} (r : Outcome A * State * list Effect) : Outcome A := r.1.1.
Definition state_of {A} (r : Outcome A * State * list Effect) : State := r.1.2.
Definition effects_of {A} (r : Outcome A * State * list Effect) : list Effect := r.2.
Arguments outcome_of {A} !r /.
Arguments state_of {A} !r /.
Arguments effects_of {A} !r /.

(** The log line that opens the dispatch of a value with [type] property
    [type]. *)
Definition received (type : option string) : Effect :=
  NetworkLog [Some "signaling packet received:"; type].

(** The event of the [catch] of [handleSignalingMessage]. *)
Definition unknown (e : Exn) : Effect :=
  NetworkEmit (signalingerror (mkSignalingError unknown_error e None)).

(** The event and the error of [reconnect] when it gives up. *)
Definition giving_up : list Effect :=
  [NetworkEmit failed;
   NetworkEmit (signalingerror
     (mkSignalingError socket_error "giving up on reconnecting to signaling server" None))].

(** The two timers [reconnect] arms when the counter is [a]. *)
Definition reconnect_timers (a : Z) : list Timer :=
  [EventTimer "signaling" "attempt-reconnect" None; ConnectTimer (100 * a)].

(** The state [reconnect] leaves when it schedules a connection. *)
Definition rescheduled (s : State) : State :=
  mkState (ws s) (reconnectAttempt s + 1) true (receivedID s) (currentLobby s)
    (connections s) (replayQueue s) (network s) (sockets s)
    (timers s ++ reconnect_timers (reconnectAttempt s)).

(** An error reported to the application, with the fallback of lines
    46-48, 61-63 and 116-118 when nobody listens. *)
Definition reported (n : Network) (error : SignalingError) : list Effect :=
  NetworkEmit (signalingerror error) ::
  (if bool_decide (listenerCount_signalingerror n = 0%nat) then [ConsoleError error] else []).

Definition socket_closed : SignalingError :=
  mkSignalingError socket_error "signaling socket closed" None.

Definition websocket_error (e : DomEvent) : SignalingError :=
  mkSignalingError socket_error "unexpected websocket error" (Some e).

(** Socket [w] once the platform has moved it to [rs], and once [onClose]
    has removed its listeners. *)
Definition moved (w : nat) (rs : ReadyState) (s : State) : State :=
  set_sockets (alter (λ k, mkWebSocket rs (listening k)) w (sockets s)) s.

Definition unlistened (w : nat) (s : State) : State :=
  set_sockets (alter (λ k, mkWebSocket (readyState k) false) w (sockets s)) s.

(** The state after the callback of a connect timer has run: the timer is
    gone, a new socket is connecting and is the session's socket. *)
Definition reconnected (k : nat) (s : State) : State :=
  set_ws (length (sockets s))
    (set_sockets (sockets s ++ [mkWebSocket CONNECTING true])
       (set_timers (delete k (timers s)) s)).

(** The state after [onOpen]. *)
Definition opened (s : State) : State :=
  set_reconnecting false (set_reconnectAttempt 0 s).

(** The [hello] of [onOpen], on socket [w]. *)
Definition hello (w : nat) (s : State) : list Effect :=
  [NetworkLog [Some "sending signaling packet:"; Some "hello"];
   WsSend w (HelloPacket (gameID (network s)) (receivedID s))].

(** A packet handed to the peer registered for [A]. *)
Definition deliver (A : string) (p : SignalingPacketTypes) : Effect :=
  Invoke (OnSignalingMessage A p).

Definition is_unknown_error (e : Effect) : bool :=
  match e with
  | NetworkEmit (signalingerror err) =>
      match etype err with unknown_error => true | _ => false end
  | _ => false
  end.

Definition is_failed (e : Effect) : bool :=
  match e with NetworkEmit failed => true | _ => false end.

Definition is_ConsoleError (e : Effect) : bool :=
  match e with ConsoleError _ => true | _ => false end.

Definition is_SetTimeout (e : Effect) : bool :=
  match e with SetTimeout _ => true | _ => false end.

(** Effects on the transport: a socket created, written to or closed, or
    a timer armed. *)
Definition touches_transport (e : Effect) : bool :=
  match e with WsNew _ | WsSend _ _ | WsClose _ | SetTimeout _ => true | _ => false end.

Definition is_ConnectTimer (t : Timer) : bool :=
  match t with ConnectTimer _ => true | _ => false end.

(** The reconnects that are scheduled and have not run yet. *)
Definition pending_reconnects (s : State) : nat :=
  length (filter (λ t, is_ConnectTimer t = true) (timers s)).

(** A [candidate] or [description] packet of source [A]. *)
Definition is_negotiation_for (A : string) (p : SignalingPacketTypes) : bool :=
  match p with
  | CandidatePacket source _ | DescriptionPacket source _ => bool_decide (source = A)
  | _ => false
  end.

(** The packets buffered for [A], oldest first. *)
Definition buffered (s : State) (A : string) : list SignalingPacketTypes :=
  default [] (replayQueue s !! A).

(** [A] has no buffered entries once it is in the registry. *)
Definition replay_invariant (A : string) (s : State) : Prop :=
  is_Some (connections s !! A) → replayQueue s !! A = None.

(** The session's part of the state that the transport handlers leave
    alone, and the transport's part that the dispatcher leaves alone. *)
Definition same_session (s s' : State) : Prop :=
  receivedID s' = receivedID s ∧ currentLobby s' = currentLobby s ∧
  connections s' = connections s ∧ replayQueue s' = replayQueue s ∧
  network s' = network s.

Definition same_transport (s s' : State) : Prop :=
  ws s' = ws s ∧ sockets s' = sockets s ∧ timers s' = timers s ∧
  reconnecting s' = reconnecting s ∧ reconnectAttempt s' = reconnectAttempt s ∧
  network s' = network s.

(** The first identifier a run of [welcome] packets can record. *)
Definition first_id (ids : list string) : option string :=
  head (filter (λ id, id ≠ "") ids).

(** Failures of the transport and frames, as opposed to a socket that
    opens or a timer that expires. *)
Definition is_failure_or_frame (i : Input) : bool :=
  match i with
  | Error _ _ _ | Close _ | Message _ _ => true
  | Open _ | Timeout _ => false
  end.

(** At most one reconnect is pending, and none unless the flag is set. *)
Definition one_pending (s : State) : Prop :=
  (pending_reconnects s ≤ 1)%nat ∧
  (reconnecting s = false → pending_reconnects s = 0%nat).

(** The inputs whose listeners clear the [reconnecting] flag: a socket
    that opens, and an error of a socket that is closed. *)
Definition clears_flag (i : Input) : bool :=
  match i with
  | Open _ | Error _ _ CLOSED => true
  | _ => false
  end.

(** The sockets that are not closed. *)
Definition live (s : State) : nat :=
  length (filter (λ k, readyState k ≠ CLOSED) (sockets s)).

(** What the platform does to the session in one task of its event loop.
    A socket that fails reports an error, its [readyState] being [CLOSED]
    already, and then its close event, in the same task; a socket that is
    closed by the peer reports its close event only. *)
Inductive Task : Type :=
| Opens (w : nat)
| Fails (w : nat) (e : DomEvent)
| Closes (w : nat)
| Receives (w : nat) (data : Frame)
| Expires (k : nat).

Definition inputs_of (t : Task) : list Input :=
  match t with
  | Opens w => [Open w]
  | Fails w e => [Error w e CLOSED; Close w]
  | Closes w => [Close w]
  | Receives w data => [Message w data]
  | Expires k => [Timeout k]
  end.

(** The life of a socket: it opens while it is connecting, and it fails or
    closes once, while it is not closed yet. *)
Definition possible (s : State) (t : Task) : Prop :=
  match t with
  | Opens w => readyState <$> sockets s !! w = Some CONNECTING
  | Fails w _ | Closes w =>
      ∃ k, sockets s !! w = Some k ∧ readyState k ≠ CLOSED
  | Receives _ _ | Expires _ => True
  end.

Fixpoint plausible (rejects : Call → option Exn) (ts : list Task) (s : State) : Prop :=
  match ts with
  | [] => True
  | t :: ts =>
      possible s t ∧
      plausible rejects ts (state_of (run rejects (inputs_of t) s))
  end.

(** At most one reconnect is pending, and then no socket is live; or at
    most one socket is live. *)
Definition settled (s : State) : Prop :=
  one_pending s ∧ (pending_reconnects s + live s ≤ 1)%nat.

(** What the dispatch of one frame can do to the state. *)
Inductive dispatched (rejects : Call → option Exn) (s : State) : State → Prop :=
| dispatched_nothing :
    dispatched rejects s s
| dispatched_welcome id :
    receivedID s = None → id ≠ "" →
    dispatched rejects s (set_receivedID (Some id) s)
| dispatched_joined l :
    dispatched rejects s (set_currentLobby (Some l) s)
| dispatched_connect id polite :
    receivedID s ≠ Some id →
    dispatched rejects s
      (set_replayQueue (delete id (replayQueue s))
         (set_connections (<[id := mkPeer polite]> (connections s)) s))
| dispatched_connect_interrupted id polite p x :
    receivedID s ≠ Some id →
    rejects (OnSignalingMessage id p) = Some x →
    dispatched rejects s (set_connections (<[id := mkPeer polite]> (connections s)) s)
| dispatched_buffered source p :
    connections s !! source = None →
    is_negotiation_for source p = true →
    dispatched rejects s
      (set_replayQueue (<[source := buffered s source ++ [p]]> (replayQueue s)) s).

(** A session that has just been created, with no observer of
    [signalingerror], used to instantiate the properties. *)
Definition quiet_network : Network := mkNetwork "game" "" false 0.
Definition fresh : State := (new_Signaling quiet_network ∅).1.
Definition reliable : Call → option Exn := λ _, None.

(** [n] connections that fail one after the other, from the first socket
    on: the error and the close event of the socket, then the two timers
    of [reconnect], the second of which creates the next socket. *)
Definition refused : DomEvent := ErrorEvent "connection refused".
Definition failures (n : nat) : list Input :=
  mjoin ((λ w, [Error w refused CLOSED; Close w; Timeout 0%nat; Timeout 0%nat])
           <$> seq 0 n).

(** ** Vocabulary of further properties *)

(** The [type] of a [SignalingError], as the string it is in the source. *)
Definition type_name (t : SignalingErrorType) : string :=
  match t with
  | unknown_error => "unknown-error"
  | socket_error => "socket-error"
  | server_error => "server-error"
  end.

(** [SignalingError.toString] (lines 200-202) *)
Definition toString (e : SignalingError) : string :=
  "[" +:+ type_name (etype e) +:+ ": " +:+ message e +:+ "]".

(** The packets handed to the peer registered for [A], in the order of the
    effects. *)
Definition delivery_to (A : string) (e : Effect) : option SignalingPacketTypes :=
  match e with
  | Invoke (OnSignalingMessage B p) => if decide (B = A) then Some p else None
  | _ => None
  end.

Definition deliveries (A : string) (l : list Effect) : list SignalingPacketTypes :=
  omap (delivery_to A) l.

(** The negotiation packets of source [A] among frames, in their order. *)
Definition negotiation_of (A : string) (data : Frame) : option SignalingPacketTypes :=
  match data with
  | Packet p => if is_negotiation_for A p then Some p else None
  | _ => None
  end.

Definition negotiations (A : string) (l : list Frame) : list SignalingPacketTypes :=
  omap (negotiation_of A) l.

(** Whether a frame names peer [A]: as the [id] of a [connect] or
    [disconnect] packet, or as the [source] of a negotiation packet. *)
Definition concerns (A : string) (data : Frame) : bool :=
  match data with
  | Packet (ConnectPacket id _) | Packet (DisconnectPacket id) => bool_decide (id = A)
  | Packet (CandidatePacket source _) | Packet (DescriptionPacket source _) =>
      bool_decide (source = A)
  | _ => false
  end.

(** Whether an effect is a call that names peer [B]. *)
Definition names (B : string) (e : Effect) : bool :=
  match e with
  | Invoke (AddPeer id _) | Invoke (PeerClose id) | Invoke (OnSignalingMessage id _) =>
      bool_decide (id = B)
  | _ => false
  end.

(** The frames whose [case] assigns a field of the session or calls
    [_addPeer]. *)
Definition may_change_session (data : Frame) : bool :=
  match data with
  | Packet (WelcomePacket _) | Packet (JoinedPacket _) | Packet (ConnectPacket _ _)
  | Packet (CandidatePacket _ _) | Packet (DescriptionPacket _ _) => true
  | _ => false
  end.

(** The lobby a run of [joined] packets leaves. *)
Definition last_lobby (ls : list string) : option string :=
  last (filter (λ l, l ≠ "") ls).

(** The counter and the delays of the armed connect timers stay within
    the ceiling. *)
Definition timer_within_bounds (t : Timer) : Prop :=
  match t with
  | ConnectTimer maxDelay => 0 ≤ maxDelay ≤ 4200
  | EventTimer _ _ _ => True
  end.

Definition within_bounds (s : State) : Prop :=
  0 ≤ reconnectAttempt s ≤ 43 ∧ Forall timer_within_bounds (timers s).

(** The socket an input is an event of. *)
Definition socket_of (i : Input) : option nat :=
  match i with
  | Open w | Error w _ _ | Message w _ | Close w => Some w
  | Timeout _ => None
  end.

(** Socket [w] exists and has no listeners. *)
Definition deaf (w : nat) (s : State) : Prop :=
  ∃ k, sockets s !! w = Some k ∧ listening k = false.

(** No socket of [s] is gone in [s'], and none has got listeners back. *)
Definition quieter (s s' : State) : Prop :=
  ∀ w k, sockets s !! w = Some k →
    ∃ k', sockets s' !! w = Some k' ∧ (listening k = false → listening k' = false).

(** Whether an input is a frame. *)
Definition is_frame (i : Input) : bool :=
  match i with
  | Message _ _ => true
  | _ => false
  end.

(** The socket a packet is written to. *)
Definition written_to (e : Effect) : option nat :=
  match e with
  | WsSend w _ => Some w
  | _ => None
  end.

(** Socket [w] is connecting or open. *)
Definition writable (w : nat) (s : State) : Prop :=
  ∃ k, sockets s !! w = Some k ∧ (readyState k = CONNECTING ∨ readyState k = OPEN).

(** The application marking the session as closing ([network.closing]). *)
Definition mark_closing (s : State) : State :=
  mkState (ws s) (reconnectAttempt s) (reconnecting s) (receivedID s) (currentLobby s)
    (connections s) (replayQueue s)
    (mkNetwork (gameID (network s)) (network_id (network s)) true
       (listenerCount_signalingerror (network s)))
    (sockets s) (timers s).

(** ** Vocabulary of the handlers that wait *)

(** The packets the replay loop hands to the registered peer of [id] from
    the queue [q], and the reason the loop stops with, if the peer rejects
    one. *)
Fixpoint loop_calls (rejects : Call → option Exn) (id : string)
    (q : list SignalingPacketTypes) : list Effect :=
  match q with
  | [] => []
  | p :: rest =>
      deliver id p ::
      match rejects (OnSignalingMessage id p) with
      | Some _ => []
      | None => loop_calls rejects id rest
      end
  end.

Fixpoint loop_rejection (rejects : Call → option Exn) (id : string)
    (q : list SignalingPacketTypes) : option Exn :=
  match q with
  | [] => None
  | p :: rest =>
      match rejects (OnSignalingMessage id p) with
      | Some e => Some e
      | None => loop_rejection rejects id rest
      end
  end.

(** What the [catch] adds when the handler ends with a rejection. *)
Definition reported_rejection (x : option Exn) : list Effect :=
  match x with
  | Some e => [unknown e]
  | None => []
  end.

(** A handler suspended in the replay loop of [A]. *)
Definition is_replay_of (A : string) (k : Suspended) : bool :=
  match k with
  | AwaitReplay id _ _ => bool_decide (id = A)
  | _ => false
  end.

(** The queue of [A] is being flushed: the handler of a [connect] packet
    for [A] is in its replay loop. *)
Definition flushing (A : string) (hs : list Suspended) : Prop :=
  Exists (λ k, is_replay_of A k = true) hs.

(** A handler in the replay loop of [id] has the peer of [id] in the
    registry. *)
Definition replays_registered (sys : System) : Prop :=
  Forall (λ k, match k with
               | AwaitReplay id _ _ => is_Some (connections sys.1 !! id)
               | _ => True
               end) sys.2.

(** A handler of a [connect] packet for [A], before or in its replay
    loop. *)
Definition is_flush_of (A : string) (k : Suspended) : bool :=
  match k with
  | AwaitAddPeer id _ | AwaitReplay id _ _ => bool_decide (id = A)
  | AwaitDelivery _ _ => false
  end.

(** Whatever happens but the arrival of a frame that names [A]. *)
Definition leaves_alone (A : string) (o : Occurrence) : bool :=
  match o with
  | Arrives data => negb (concerns A data)
  | Settles _ => true
  end.

(** How far the handler of a [connect] packet for [A] has got with the
    queue [q], the peer having received [delivered]: it waits for
    [_addPeer]; or it is in its loop, with [rest] still to visit; or it
    has finished. *)
Definition flush_progress (A : string) (polite : bool) (q : list SignalingPacketTypes)
    (sys : System) (delivered : list SignalingPacketTypes) : Prop :=
  (filter (λ k, is_flush_of A k = true) sys.2 = [AwaitAddPeer A polite] ∧
   buffered sys.1 A = q ∧ delivered = []) ∨
  (∃ p rest,
     filter (λ k, is_flush_of A k = true) sys.2 = [AwaitReplay A (Some p) rest] ∧
     connections sys.1 !! A = Some (mkPeer polite) ∧ delivered ++ rest = q) ∨
  (filter (λ k, is_flush_of A k = true) sys.2 = [] ∧
   connections sys.1 !! A = Some (mkPeer polite) ∧
   replayQueue sys.1 !! A = None ∧ delivered = q).

(** [A] has buffered entries while it is in the registry only while its
    queue is being flushed. *)
Definition flush_invariant (A : string) (sys : System) : Prop :=
  replay_invariant A sys.1 ∨ flushing A sys.2.

(** * Properties *)

(** ** Symbolic evaluation *)

Ltac unfold_methods :=
  unfold onMessage, handleSignalingMessage, dispatch, onOpen, onError, onClose,
    reconnect, close, connect_callback, connect, event_callback, event, send,
    setTimeout, _addPeer, invoke, when, try_catch.

Ltac unfold_monad := unfold bind, get, modify, tell, ret, throw.

Ltac exec := unfold_methods; unfold_monad; simpl.

(** Case analysis on whatever a run still branches on. *)
Ltac branch :=
  repeat match goal with
  | |- context [match ?x with _ => _ end] =>
      lazymatch x with
      | context [match _ with _ => _ end] => fail
      | _ => destruct x eqn:?; simpl
      end
  end.

Ltac invert_run :=
  repeat match goal with
  | H : (_, _, _) = (_, _, _) |- _ => inversion H; clear H; subst
  | H : (_, _) = (_, _) |- _ => inversion H; clear H; subst
  end.

(** ** The dispatcher, case by case *)

Section Dispatcher.

Variable rejects : Call → option Exn.

(** The replay loop leaves the state alone and only delivers; it stops at
    the first packet the peer rejects. *)
Lemma replay_loop id q s :
  ∃ r e, for_of q (replay rejects id) s = (r, s, e) ∧
         Forall (λ x, ∃ p, x = deliver id p) e ∧
         (r = Returned tt ∨
          ∃ p x, r = Thrown x ∧ rejects (OnSignalingMessage id p) = Some x).
Proof.
  induction q as [|p q IH]; simpl.
  - exists (Returned tt), []. repeat split; [constructor | by left].
  - destruct IH as (r & e & Hq & He & Hr).
    unfold bind at 1, replay at 1. exec.
    destruct (connections s !! id); simpl.
    + destruct (rejects (OnSignalingMessage id p)) as [x|] eqn:Hp; simpl.
      * eexists _, _. split; [reflexivity |]. split.
        -- repeat constructor. by exists p.
        -- right. by exists p, x.
      * rewrite Hq. eexists _, _. split; [reflexivity |]. split; [| exact Hr].
        constructor; [by exists p | exact He].
    + rewrite Hq. eexists _, _. split; [reflexivity |]. by split.
Qed.

(** With the peer registered and willing, the loop delivers every packet
    of the queue, oldest first. *)
Lemma replay_loop_ok id q s peer :
  connections s !! id = Some peer →
  (∀ p, rejects (OnSignalingMessage id p) = None) →
  for_of q (replay rejects id) s = (Returned tt, s, deliver id <$> q).
Proof.
  intros Hpeer Hok. induction q as [|p q IH]; simpl; [reflexivity |].
  unfold bind at 1, replay at 1. exec.
  rewrite Hpeer, Hok. simpl. rewrite IH. reflexivity.
Qed.

Lemma handle_connect_self s id polite :
  receivedID s = Some id →
  handleSignalingMessage rejects (Packet (ConnectPacket id polite)) s =
    (Returned tt, s, [received (Some "connect")]).
Proof.
  intros Hid. exec. rewrite Hid.
  destruct (decide (Some id = Some id)); [reflexivity | congruence].
Qed.

Lemma handle_connect s id polite :
  receivedID s ≠ Some id →
  rejects (AddPeer id polite) = None →
  (∀ p, rejects (OnSignalingMessage id p) = None) →
  handleSignalingMessage rejects (Packet (ConnectPacket id polite)) s =
    (Returned tt,
     set_replayQueue (delete id (replayQueue s))
       (set_connections (<[id := mkPeer polite]> (connections s)) s),
     [received (Some "connect"); Invoke (AddPeer id polite)]
       ++ (deliver id <$> buffered s id)).
Proof.
  intros Hid Hadd Hok. exec.
  destruct (decide (receivedID s = Some id)); [contradiction |].
  rewrite Hadd. simpl.
  rewrite (replay_loop_ok id _ _ (mkPeer polite)); [| simpl; apply lookup_insert_eq | exact Hok].
  simpl. rewrite app_nil_r. reflexivity.
Qed.

Lemma handle_negotiation_buffered s A p :
  is_negotiation_for A p = true →
  connections s !! A = None →
  handleSignalingMessage rejects (Packet p) s =
    (Returned tt,
     set_replayQueue (<[A := buffered s A ++ [p]]> (replayQueue s)) s,
     [received (Some (packet_type p))]).
Proof.
  intros Hp Hnone.
  destruct p; simpl in Hp; try discriminate;
    apply bool_decide_eq_true in Hp; subst;
    exec; rewrite Hnone; reflexivity.
Qed.

Lemma handle_negotiation_delivered s A p peer :
  is_negotiation_for A p = true →
  connections s !! A = Some peer →
  rejects (OnSignalingMessage A p) = None →
  handleSignalingMessage rejects (Packet p) s =
    (Returned tt, s, [received (Some (packet_type p)); deliver A p]).
Proof.
  intros Hp Hpeer Hok.
  destruct p; simpl in Hp; try discriminate;
    apply bool_decide_eq_true in Hp; subst;
    exec; rewrite Hpeer, Hok; reflexivity.
Qed.

Lemma handle_disconnect_absent s id :
  connections s !! id = None →
  handleSignalingMessage rejects (Packet (DisconnectPacket id)) s =
    (Returned tt, s, [received (Some "disconnect")]).
Proof. intros Hid. exec. rewrite Hid. reflexivity. Qed.

Lemma handle_welcome_first s id :
  receivedID s = None → id ≠ "" →
  handleSignalingMessage rejects (Packet (WelcomePacket id)) s =
    (Returned tt, set_receivedID (Some id) s,
     [received (Some "welcome"); NetworkEmit ready; PrefetchTURNCredentials]).
Proof.
  intros Hid Hne. exec. rewrite Hid.
  destruct (decide (id = "")); [contradiction | reflexivity].
Qed.

Lemma handle_welcome_again s id r :
  receivedID s = Some r →
  handleSignalingMessage rejects (Packet (WelcomePacket id)) s =
    (Returned tt, s,
     [received (Some "welcome"); NetworkLog [Some "signaling reconnected"];
      NetworkEmit signalingreconnected]).
Proof. intros Hid. exec. rewrite Hid. reflexivity. Qed.

Lemma handle_welcome_empty s :
  receivedID s = None →
  handleSignalingMessage rejects (Packet (WelcomePacket "")) s =
    (Returned tt, s,
     [received (Some "welcome"); unknown "missing id on received welcome packet"]).
Proof. intros Hid. exec. rewrite Hid. reflexivity. Qed.

Lemma handle_joined_empty s :
  handleSignalingMessage rejects (Packet (JoinedPacket "")) s =
    (Returned tt, s,
     [received (Some "joined"); unknown "missing lobby on received connect packet"]).
Proof. reflexivity. Qed.

Lemma handle_foreign s type H :
  handleSignalingMessage rejects (Foreign type H) s = (Returned tt, s, [received type]).
Proof. reflexivity. Qed.

Lemma handle_malformed s reason :
  handleSignalingMessage rejects (Malformed reason) s = (Returned tt, s, [unknown reason]).
Proof. reflexivity. Qed.

End Dispatcher.

(** ** What every dispatch has in common *)

Section Dispatch.

Variable rejects : Call → option Exn.

(** The [try] of [handleSignalingMessage] turns whatever [dispatch] throws
    into one event, emitted last. *)
Lemma handle_catches data s :
  match dispatch rejects data s with
  | (Returned _, s1, e1) =>
      handleSignalingMessage rejects data s = (Returned tt, s1, e1)
  | (Thrown x, s1, e1) =>
      handleSignalingMessage rejects data s = (Returned tt, s1, e1 ++ [unknown x])
  end.
Proof.
  unfold handleSignalingMessage, try_catch.
  destruct (dispatch rejects data s) as [[[[]|x] s1] e1]; reflexivity.
Qed.

Lemma handle_returns data s :
  outcome_of (handleSignalingMessage rejects data s) = Returned tt.
Proof.
  pose proof (handle_catches data s) as H.
  destruct (dispatch rejects data s) as [[[[]|x] s1] e1]; by rewrite H.
Qed.

Lemma onMessage_handle data s :
  onMessage rejects data s = handleSignalingMessage rejects data s.
Proof.
  pose proof (handle_returns data s) as H.
  unfold onMessage, try_catch.
  destruct (handleSignalingMessage rejects data s) as [[[[]|x] s1] e1];
    [reflexivity | discriminate].
Qed.

(** The state after the dispatch of a frame. *)
Lemma dispatch_dispatched data s :
  dispatched rejects s (state_of (dispatch rejects data s)).
Proof.
  destruct data as [reason| |type H|p]; try by constructor.
  destruct p as [game i|game l peer c a d|error|id|lobby_|id polite|id
                |source candidate|source description|credentials];
    exec; try by constructor.
  - (* error *)
    destruct (bool_decide _); constructor.
  - (* welcome *)
    destruct (receivedID s) eqn:Hid; simpl; [constructor |].
    destruct (decide (id = "")); simpl; by constructor.
  - (* joined *)
    destruct (decide (lobby_ = "")); simpl; by constructor.
  - (* connect *)
    destruct (decide (receivedID s = Some id)); simpl; [constructor |].
    destruct (rejects (AddPeer id polite)); simpl; [constructor |].
    match goal with |- context [for_of ?q (replay rejects id) ?st] =>
      destruct (replay_loop rejects id q st) as (r & e & -> & _ & [->|(p & x & -> & Hp)])
    end; simpl.
    + by constructor.
    + by econstructor.
  - (* disconnect *)
    destruct (connections s !! id); simpl; [| constructor].
    destruct (rejects (PeerClose id)); constructor.
  - (* candidate *)
    destruct (connections s !! source) eqn:Hc; simpl.
    + destruct (rejects _); constructor.
    + apply (dispatched_buffered rejects s source (CandidatePacket source candidate));
        [exact Hc | simpl; by apply bool_decide_eq_true].
  - (* description *)
    destruct (connections s !! source) eqn:Hc; simpl.
    + destruct (rejects _); constructor.
    + apply (dispatched_buffered rejects s source (DescriptionPacket source description));
        [exact Hc | simpl; by apply bool_decide_eq_true].
Qed.

Lemma handle_state data s :
  state_of (handleSignalingMessage rejects data s) = state_of (dispatch rejects data s).
Proof.
  pose proof (handle_catches data s) as H.
  destruct (dispatch rejects data s) as [[[[]|x] s1] e1]; by rewrite H.
Qed.

Lemma handle_dispatched data s :
  dispatched rejects s (state_of (handleSignalingMessage rejects data s)).
Proof. rewrite handle_state. apply dispatch_dispatched. Qed.

End Dispatch.

Section Dispatch_effects.

Variable rejects : Call → option Exn.

(** [dispatch] itself emits no unknown-error and leaves the transport
    alone. *)
Lemma dispatch_effects data s :
  Forall (λ e, is_unknown_error e = false ∧ touches_transport e = false)
    (effects_of (dispatch rejects data s)).
Proof.
  destruct data as [reason| |type H|p]; try by repeat constructor.
  destruct p as [game i|game l peer c a d|error|id|lobby_|id polite|id
                |source candidate|source description|credentials];
    exec; branch; try by repeat constructor.
  all: match goal with
       | H : for_of ?q (replay rejects ?id) ?st = _ |- _ =>
           destruct (replay_loop rejects id q st) as (r' & e' & Hq & He & _);
           rewrite Hq in H; invert_run
       end.
  all: repeat (constructor; [by split |]).
  all: rewrite ?app_nil_r; try apply Forall_app; try split; try by repeat constructor.
  all: eapply Forall_impl; [exact He |]; by intros ? [p ->].
Qed.

Lemma handle_effects data s :
  Forall (λ e, touches_transport e = false)
    (effects_of (handleSignalingMessage rejects data s)).
Proof.
  pose proof (handle_catches rejects data s) as H.
  pose proof (dispatch_effects data s) as He.
  destruct (dispatch rejects data s) as [[[[]|x] s1] e1]; rewrite H; simpl in *.
  - eapply Forall_impl; [exact He |]. by intros ? [].
  - apply Forall_app. split; [| by repeat constructor].
    eapply Forall_impl; [exact He |]. by intros ? [].
Qed.

Lemma dispatched_same_transport s s' :
  dispatched rejects s s' → same_transport s s'.
Proof. destruct 1; by repeat split. Qed.

Lemma dispatched_receivedID s s' r :
  dispatched rejects s s' → receivedID s = Some r → receivedID s' = Some r.
Proof. destruct 1; simpl; congruence. Qed.

Lemma dispatched_replay_invariant A s s' :
  (∀ p, rejects (OnSignalingMessage A p) = None) →
  dispatched rejects s s' → replay_invariant A s → replay_invariant A s'.
Proof.
  intros Hok Hd Hinv. unfold replay_invariant in *.
  destruct Hd as [|id| |id polite|id polite p x Hid Hp|source p Hnone Hp]; simpl; try done.
  - destruct (decide (id = A)) as [->|Hne].
    + intros _. apply lookup_delete_eq.
    + rewrite lookup_insert_ne, lookup_delete_ne by done. exact Hinv.
  - destruct (decide (id = A)) as [->|Hne].
    + rewrite Hok in Hp. discriminate.
    + rewrite lookup_insert_ne by done. exact Hinv.
  - destruct (decide (source = A)) as [->|Hne].
    + rewrite Hnone. by intros [? ?].
    + rewrite lookup_insert_ne by done. exact Hinv.
Qed.

End Dispatch_effects.

(** ** Reconnection *)

Lemma reconnect_noop s :
  reconnecting s = true ∨ closing (network s) = true →
  reconnect s = (Returned tt, s, []).
Proof.
  intros H. exec.
  destruct H as [-> | ->]; [reflexivity | by rewrite orb_true_r].
Qed.

Lemma reconnect_gives_up s :
  reconnecting s = false → closing (network s) = false →
  42 < reconnectAttempt s →
  reconnect s = (Returned tt, s, giving_up).
Proof.
  intros Hr Hc Ha. exec. rewrite Hr, Hc. simpl.
  destruct (Z.ltb_spec 42 (reconnectAttempt s)); [reflexivity | lia].
Qed.

Lemma reconnect_schedules s :
  reconnecting s = false → closing (network s) = false →
  reconnectAttempt s ≤ 42 →
  reconnect s =
    (Returned tt, rescheduled s, SetTimeout <$> reconnect_timers (reconnectAttempt s)).
Proof.
  intros Hr Hc Ha. exec. rewrite Hr, Hc. simpl.
  destruct (Z.ltb_spec 42 (reconnectAttempt s)); [lia |].
  simpl. unfold rescheduled, set_reconnectAttempt. simpl.
  by rewrite <- app_assoc.
Qed.

(** ** Runs *)

Section Runs.

Variable rejects : Call → option Exn.

Lemma fire_cases w (listener : M unit) s :
  fire w listener s = listener s ∨ fire w listener s = (Returned tt, s, []).
Proof.
  unfold fire, bind, get. simpl.
  destruct (sockets s !! w) as [[rs []]|]; simpl; auto.
  left. by destruct (listener s) as [[? ?] ?].
Qed.

Lemma fire_listening w (listener : M unit) s k :
  sockets s !! w = Some k → listening k = true →
  fire w listener s = listener s.
Proof.
  intros Hw Hl. unfold fire, bind, get. simpl. rewrite Hw, Hl.
  by destruct (listener s) as [[? ?] ?].
Qed.

Lemma step_returns i s : outcome_of (step rejects i s) = Returned tt.
Proof.
  destruct i as [w|w e rs|w data|w|k]; unfold step.
  3: { destruct (fire_cases w (onMessage rejects data) s) as [-> | ->]; [| reflexivity].
       rewrite onMessage_handle. apply handle_returns. }
  all: unfold fire, set_readyState; exec; branch; reflexivity.
Qed.

(** Only the dispatch of a frame touches the session's part of the state. *)
Lemma step_session i s :
  same_session s (state_of (step rejects i s)) ∨
  ∃ w data, i = Message w data ∧
            step rejects i s = handleSignalingMessage rejects data s.
Proof.
  destruct i as [w|w e rs|w data|w|k]; unfold step.
  3: { destruct (fire_cases w (onMessage rejects data) s) as [H | ->].
       - right. exists w, data. by rewrite H, onMessage_handle.
       - left. by repeat split. }
  all: left; unfold fire, set_readyState; exec; branch; by repeat split.
Qed.

Lemma run_cons i l s :
  run rejects (i :: l) s =
    let s1 := state_of (step rejects i s) in
    (outcome_of (run rejects l s1), state_of (run rejects l s1),
     effects_of (step rejects i s) ++ effects_of (run rejects l s1)).
Proof.
  pose proof (step_returns i s) as H.
  unfold run. simpl. unfold bind at 1.
  destruct (step rejects i s) as [[r s1] e1]. simpl in *. subst r.
  by destruct (for_of l (step rejects) s1) as [[? ?] ?].
Qed.

Lemma state_run_nil s : state_of (run rejects [] s) = s.
Proof. reflexivity. Qed.

Lemma state_run_cons i l s :
  state_of (run rejects (i :: l) s) = state_of (run rejects l (state_of (step rejects i s))).
Proof. by rewrite run_cons. Qed.

Lemma run_app l1 l2 s :
  run rejects (l1 ++ l2) s =
    let s1 := state_of (run rejects l1 s) in
    (outcome_of (run rejects l2 s1), state_of (run rejects l2 s1),
     effects_of (run rejects l1 s) ++ effects_of (run rejects l2 s1)).
Proof.
  revert s. induction l1 as [|i l1 IH]; intros s.
  - simpl. by destruct (run rejects l2 s) as [[? ?] ?].
  - rewrite <- app_comm_cons, !run_cons. simpl. rewrite IH. simpl.
    by rewrite app_assoc.
Qed.

(** What every step keeps, every run keeps. *)
Lemma run_invariant (P : State → Prop) :
  (∀ i s, P s → P (state_of (step rejects i s))) →
  ∀ l s, P s → P (state_of (run rejects l s)).
Proof.
  intros Hstep l. induction l as [|i l IH]; intros s Hs; [exact Hs |].
  rewrite run_cons. simpl. apply IH, Hstep, Hs.
Qed.

Lemma dispatch_all_cons data l s :
  dispatch_all rejects (data :: l) s =
    let s1 := state_of (handleSignalingMessage rejects data s) in
    (outcome_of (dispatch_all rejects l s1), state_of (dispatch_all rejects l s1),
     effects_of (handleSignalingMessage rejects data s)
       ++ effects_of (dispatch_all rejects l s1)).
Proof.
  pose proof (handle_returns rejects data s) as H.
  unfold dispatch_all. simpl. unfold bind at 1.
  destruct (handleSignalingMessage rejects data s) as [[r s1] e1]. simpl in *. subst r.
  by destruct (for_of l (handleSignalingMessage rejects) s1) as [[? ?] ?].
Qed.

Lemma step_receivedID i s r :
  receivedID s = Some r → receivedID (state_of (step rejects i s)) = Some r.
Proof.
  intros Hr. destruct (step_session i s) as [(H & _) | (w & data & _ & ->)].
  - by rewrite H.
  - eapply dispatched_receivedID; [apply handle_dispatched | exact Hr].
Qed.

Lemma step_replay_invariant A i s :
  (∀ p, rejects (OnSignalingMessage A p) = None) →
  replay_invariant A s → replay_invariant A (state_of (step rejects i s)).
Proof.
  intros Hok Hinv. destruct (step_session i s) as [(_ & _ & Hc & Hq & _) | (w & data & _ & ->)].
  - unfold replay_invariant. by rewrite Hc, Hq.
  - eapply dispatched_replay_invariant; [exact Hok | apply handle_dispatched | exact Hinv].
Qed.

End Runs.

(** ** The listeners of a socket *)

Section Listeners.

Variable rejects : Call → option Exn.

Lemma onClose_schedules s w :
  closing (network s) = false → reconnecting s = false →
  reconnectAttempt s ≤ 42 →
  onClose w s =
    (Returned tt, rescheduled (unlistened w s),
     reported (network s) socket_closed
       ++ (SetTimeout <$> reconnect_timers (reconnectAttempt s))).
Proof.
  intros Hc Hr Ha. exec. rewrite Hc. simpl.
  unfold reported, rescheduled, unlistened, set_reconnectAttempt.
  destruct (bool_decide _); simpl; rewrite Hr, Hc; simpl;
    (destruct (Z.ltb_spec 42 (reconnectAttempt s)); [lia |]);
    simpl; by rewrite <- app_assoc.
Qed.

Lemma onError_closed_schedules s w e k :
  sockets s !! w = Some k → readyState k = CLOSED →
  closing (network s) = false → reconnectAttempt s ≤ 42 →
  onError w e s =
    (Returned tt, rescheduled (set_reconnecting false s),
     reported (network s) (websocket_error e)
       ++ (SetTimeout <$> reconnect_timers (reconnectAttempt s))).
Proof.
  intros Hw Hk Hc Ha. exec.
  unfold reported, rescheduled, set_reconnectAttempt.
  destruct (bool_decide (listenerCount_signalingerror _ = _)); simpl;
    rewrite Hw; simpl; rewrite Hk; simpl; rewrite Hc; simpl;
    (destruct (Z.ltb_spec 42 (reconnectAttempt s)); [lia |]);
    simpl; by rewrite <- app_assoc.
Qed.

Lemma step_Timeout_connect s k d :
  timers s !! k = Some (ConnectTimer d) →
  step rejects (Timeout k) s =
    (Returned tt, reconnected k s, [WsNew (length (sockets s))]).
Proof. intros Hk. unfold step. exec. rewrite Hk. reflexivity. Qed.

Lemma step_Open s w k :
  sockets s !! w = Some k → listening k = true → ws s = w →
  step rejects (Open w) s = (Returned tt, opened (moved w OPEN s), hello w s).
Proof.
  intros Hw Hl <-. unfold step, fire, set_readyState. exec.
  rewrite list_lookup_alter_eq, Hw. simpl. rewrite Hl. simpl.
  rewrite list_lookup_alter_eq, Hw. simpl. reflexivity.
Qed.

Lemma step_Close_schedules s w k :
  sockets s !! w = Some k → listening k = true →
  closing (network s) = false → reconnecting s = false →
  reconnectAttempt s ≤ 42 →
  step rejects (Close w) s =
    (Returned tt, rescheduled (unlistened w (moved w CLOSED s)),
     reported (network s) socket_closed
       ++ (SetTimeout <$> reconnect_timers (reconnectAttempt s))).
Proof.
  intros Hw Hl Hc Hr Ha. unfold step, set_readyState.
  unfold bind at 1, modify at 1.
  rewrite (fire_listening w _ _ (mkWebSocket CLOSED (listening k)));
    [| simpl; by rewrite list_lookup_alter_eq, Hw | exact Hl].
  fold (moved w CLOSED s).
  rewrite onClose_schedules; [reflexivity | exact Hc | exact Hr | exact Ha].
Qed.

End Listeners.

(** ** Handlers that wait *)

Section Waiting.

Variable rejects : Call → option Exn.

Lemma async_run_app l1 l2 sys :
  async_run rejects (l1 ++ l2) sys =
    let r1 := async_run rejects l1 sys in
    let r2 := async_run rejects l2 r1.1 in
    (r2.1, r1.2 ++ r2.2).
Proof.
  revert sys. induction l1 as [|o l1 IH]; intros sys; simpl.
  - by destruct (async_run rejects l2 sys).
  - destruct (async_step rejects o sys) as [sys1 e1]. rewrite IH. simpl.
    destruct (async_run rejects l1 sys1) as [sys2 e2]. simpl.
    destruct (async_run rejects l2 sys2) as [sys3 e3]. simpl.
    by rewrite app_assoc.
Qed.

(** The replay loop on the queue of a registered peer, from its first
    packet to its last or to the first the peer rejects. *)
Lemma replay_loop_closed id q s peer :
  connections s !! id = Some peer →
  for_of q (replay rejects id) s =
    (match loop_rejection rejects id q with Some e => Thrown e | None => Returned tt end,
     s, loop_calls rejects id q).
Proof.
  intros Hpeer. induction q as [|p q IH]; simpl; [reflexivity |].
  unfold bind at 1, replay at 1. exec. rewrite Hpeer. simpl.
  destruct (rejects (OnSignalingMessage id p)) as [x|]; simpl; [reflexivity |].
  rewrite IH. by destruct (loop_rejection rejects id q).
Qed.

Lemma loop_awaits_ok id q :
  (∀ p, rejects (OnSignalingMessage id p) = None) →
  loop_awaits rejects id q = length q.
Proof.
  intros Hok. induction q as [|p q IH]; simpl; [reflexivity |].
  by rewrite Hok, IH.
Qed.

(** The handler of a [connect] packet that nothing interrupts but the
    peer. *)
Lemma handle_connect_closed s id polite :
  receivedID s ≠ Some id →
  rejects (AddPeer id polite) = None →
  handleSignalingMessage rejects (Packet (ConnectPacket id polite)) s =
    (Returned tt,
     (let s1 := set_connections (<[id := mkPeer polite]> (connections s)) s in
      match loop_rejection rejects id (buffered s id) with
      | Some _ => s1
      | None => set_replayQueue (delete id (replayQueue s)) s1
      end),
     [received (Some "connect"); Invoke (AddPeer id polite)]
       ++ loop_calls rejects id (buffered s id)
       ++ reported_rejection (loop_rejection rejects id (buffered s id))).
Proof.
  intros Hid Hadd. exec.
  destruct (decide (receivedID s = Some id)); [contradiction |].
  rewrite Hadd. simpl.
  rewrite (replay_loop_closed id _ _ (mkPeer polite)) by (simpl; apply lookup_insert_eq).
  unfold buffered.
  destruct (loop_rejection rejects id (default [] (replayQueue s !! id))); simpl.
  - reflexivity.
  - by rewrite !app_nil_r.
Qed.

Lemma suspended_lookup (hs : list Suspended) k : (hs ++ [k]) !! length hs = Some k.
Proof. by rewrite list_lookup_middle. Qed.

Lemma suspended_insert (hs : list Suspended) k k' :
  <[length hs := k']> (hs ++ [k]) = hs ++ [k'].
Proof.
  rewrite insert_app_r_alt by lia. by rewrite Nat.sub_diag.
Qed.

Lemma suspended_delete (hs : list Suspended) k : delete (length hs) (hs ++ [k]) = hs.
Proof.
  induction hs as [|h hs IH]; simpl; [reflexivity | by rewrite IH].
Qed.

Lemma async_run_cons o l sys :
  async_run rejects (o :: l) sys =
    let r1 := async_step rejects o sys in
    let r2 := async_run rejects l r1.1 in
    (r2.1, r1.2 ++ r2.2).
Proof.
  simpl. destruct (async_step rejects o sys) as [sys1 e1]. simpl.
  by destruct (async_run rejects l sys1).
Qed.

(** One packet of the replay loop of a registered peer settles. *)
Lemma settle_replay_step hs id peer s p rest :
  connections s !! id = Some peer →
  async_step rejects (Settles (length hs)) (s, hs ++ [AwaitReplay id (Some p) rest]) =
    match rejects (OnSignalingMessage id p) with
    | Some e => ((s, hs), [unknown e])
    | None =>
        match rest with
        | [] => ((set_replayQueue (delete id (replayQueue s)) s, hs), [])
        | p' :: rest' => ((s, hs ++ [AwaitReplay id (Some p') rest']), [deliver id p'])
        end
    end.
Proof.
  intros Hpeer. unfold async_step. cbn [fst snd]. rewrite suspended_lookup.
  unfold resume, caught, awaited, try_catch, replay_from. unfold_monad.
  destruct (rejects (OnSignalingMessage id p)) as [x|]; simpl.
  - by rewrite suspended_delete.
  - destruct rest as [|p' rest']; simpl.
    + by rewrite suspended_delete.
    + rewrite Hpeer. simpl. by rewrite suspended_insert.
Qed.

(** The replay loop of a registered peer, resumed until it ends with
    nothing in between. *)
Lemma settle_replay hs id peer s :
  connections s !! id = Some peer →
  ∀ rest p,
    async_run rejects (replicate (loop_awaits rejects id (p :: rest)) (Settles (length hs)))
      (s, hs ++ [AwaitReplay id (Some p) rest]) =
      ((match loop_rejection rejects id (p :: rest) with
        | Some _ => s
        | None => set_replayQueue (delete id (replayQueue s)) s
        end, hs),
       match rejects (OnSignalingMessage id p) with
       | Some e => [unknown e]
       | None => loop_calls rejects id rest
                   ++ reported_rejection (loop_rejection rejects id rest)
       end).
Proof.
  intros Hpeer rest. induction rest as [|p' rest IH]; intros p;
    cbn [loop_awaits loop_rejection loop_calls replicate];
    rewrite async_run_cons, (settle_replay_step _ _ peer) by done;
    destruct (rejects (OnSignalingMessage id p)) as [x|] eqn:Hp; try reflexivity.
  cbn [fst snd]. specialize (IH p'). cbn [loop_awaits loop_rejection] in IH.
  rewrite IH. cbn [fst snd].
  destruct (rejects (OnSignalingMessage id p')); reflexivity.
Qed.

(** A handler that has no [await] on its way ends where
    [handleSignalingMessage] does. *)
Lemma caught_plain (m : M unit) s :
  caught (m;; ret None) s =
    (Returned None,
     state_of (try_catch m (λ e, tell (unknown e)) s),
     effects_of (try_catch m (λ e, tell (unknown e)) s)).
Proof.
  unfold caught, try_catch, unknown. unfold_monad.
  destruct (m s) as [[[[]|x] s1] e1]; simpl; by rewrite ?app_nil_r.
Qed.

Lemma arrives_plain data s hs :
  start rejects data = caught (dispatch rejects data;; ret None) →
  async_run rejects [Arrives data] (s, hs) =
    ((state_of (handleSignalingMessage rejects data s), hs),
     effects_of (handleSignalingMessage rejects data s)).
Proof.
  intros Hstart. rewrite async_run_cons. unfold async_step. cbn [fst snd].
  rewrite Hstart, caught_plain. simpl. by rewrite app_nil_r.
Qed.

(** The turns of the dispatcher on the frames whose handlers wait. *)
Lemma arrives_connect s hs id polite :
  receivedID s ≠ Some id →
  async_step rejects (Arrives (Packet (ConnectPacket id polite))) (s, hs) =
    ((s, hs ++ [AwaitAddPeer id polite]),
     [received (Some "connect"); Invoke (AddPeer id polite)]).
Proof.
  intros Hid. unfold async_step, start, caught, try_catch. unfold_monad. simpl.
  by destruct (decide (receivedID s = Some id)).
Qed.

Lemma settle_addPeer s hs id polite :
  async_step rejects (Settles (length hs)) (s, hs ++ [AwaitAddPeer id polite]) =
    match rejects (AddPeer id polite) with
    | Some e => ((s, hs), [unknown e])
    | None =>
        let s1 := set_connections (<[id := mkPeer polite]> (connections s)) s in
        match buffered s id with
        | [] => ((set_replayQueue (delete id (replayQueue s)) s1, hs), [])
        | p :: rest => ((s1, hs ++ [AwaitReplay id (Some p) rest]), [deliver id p])
        end
    end.
Proof.
  unfold async_step. cbn [fst snd]. rewrite suspended_lookup.
  unfold resume, caught, awaited, try_catch, replay_from, buffered. unfold_monad.
  destruct (rejects (AddPeer id polite)) as [x|]; simpl.
  - by rewrite suspended_delete.
  - destruct (default [] (replayQueue s !! id)) as [|p rest]; simpl.
    + by rewrite suspended_delete.
    + rewrite lookup_insert_eq. simpl. by rewrite suspended_insert.
Qed.

Lemma arrives_negotiation_registered s hs A p peer :
  is_negotiation_for A p = true →
  connections s !! A = Some peer →
  async_step rejects (Arrives (Packet p)) (s, hs) =
    ((s, hs ++ [AwaitDelivery A p]), [received (Some (packet_type p)); deliver A p]).
Proof.
  intros Hp Hpeer.
  destruct p; simpl in Hp; try discriminate;
    apply bool_decide_eq_true in Hp; subst;
    unfold async_step, start, caught, try_catch; unfold_monad; simpl;
    by rewrite Hpeer.
Qed.

Lemma arrives_negotiation_buffered s hs A p :
  is_negotiation_for A p = true →
  connections s !! A = None →
  async_step rejects (Arrives (Packet p)) (s, hs) =
    ((set_replayQueue (<[A := buffered s A ++ [p]]> (replayQueue s)) s, hs),
     [received (Some (packet_type p))]).
Proof.
  intros Hp Hnone.
  destruct p; simpl in Hp; try discriminate;
    apply bool_decide_eq_true in Hp; subst;
    unfold async_step, start, caught, try_catch; unfold_monad; simpl;
    by rewrite Hnone.
Qed.

Lemma settle_delivery s hs A p :
  async_step rejects (Settles (length hs)) (s, hs ++ [AwaitDelivery A p]) =
    ((s, hs), reported_rejection (rejects (OnSignalingMessage A p))).
Proof.
  unfold async_step. cbn [fst snd]. rewrite suspended_lookup.
  unfold resume, caught, awaited, try_catch. unfold_monad.
  destruct (rejects (OnSignalingMessage A p)) as [x|]; simpl;
    by rewrite suspended_delete.
Qed.

Lemma handle_negotiation_closed s A p peer :
  is_negotiation_for A p = true →
  connections s !! A = Some peer →
  handleSignalingMessage rejects (Packet p) s =
    (Returned tt, s,
     [received (Some (packet_type p)); deliver A p]
       ++ reported_rejection (rejects (OnSignalingMessage A p))).
Proof.
  intros Hp Hpeer.
  destruct p; simpl in Hp; try discriminate;
    apply bool_decide_eq_true in Hp; subst;
    exec; rewrite Hpeer; simpl;
    by destruct (rejects _).
Qed.

Lemma alone_negotiation s hs A p :
  is_negotiation_for A p = true →
  async_run rejects (alone rejects (Packet p) (s, hs)) (s, hs) =
    ((state_of (handleSignalingMessage rejects (Packet p) s), hs),
     effects_of (handleSignalingMessage rejects (Packet p) s)).
Proof.
  intros Hp.
  assert (awaits rejects (Packet p) s =
          match connections s !! A with Some _ => 1 | None => 0 end)%nat as Ha.
  { destruct p; simpl in Hp; try discriminate;
      apply bool_decide_eq_true in Hp; by subst. }
  unfold alone. cbn [fst snd]. rewrite Ha.
  destruct (connections s !! A) as [peer|] eqn:Hpeer; cbn [replicate].
  - rewrite async_run_cons, (arrives_negotiation_registered s hs A p peer) by done.
    cbn [fst snd]. rewrite async_run_cons, settle_delivery. simpl.
    rewrite (handle_negotiation_closed s A p peer) by done.
    simpl. by rewrite app_nil_r.
  - rewrite async_run_cons, (arrives_negotiation_buffered s hs A p) by done.
    rewrite (handle_negotiation_buffered rejects s A p) by done.
    simpl. reflexivity.
Qed.

(** The handler of a frame, resumed until it ends with nothing in between,
    does what [handleSignalingMessage] does from its first statement to
    its last, and is suspended no more. *)
Lemma handler_alone data s hs :
  async_run rejects (alone rejects data (s, hs)) (s, hs) =
    ((state_of (handleSignalingMessage rejects data s), hs),
     effects_of (handleSignalingMessage rejects data s)).
Proof.
  destruct data as [reason| |type H|p]; try (by apply arrives_plain).
  destruct p as [game i|game l peer c a d|error|id|lobby_|id polite|id
                |source candidate|source description|credentials];
    try (by apply arrives_plain).
  - (* connect *)
    unfold alone, awaits. cbn [fst snd].
    destruct (decide (receivedID s = Some id)) as [Hid|Hid].
    { rewrite (handle_connect_self rejects s id polite Hid).
      rewrite async_run_cons. unfold async_step, start, caught, try_catch. unfold_monad.
      simpl. rewrite Hid.
      by destruct (decide (Some id = Some id)). }
    rewrite async_run_cons, arrives_connect by done. cbn [fst snd].
    destruct (rejects (AddPeer id polite)) as [x|] eqn:Hadd.
    { cbn [replicate]. rewrite async_run_cons, settle_addPeer, Hadd. simpl.
      exec. destruct (decide (receivedID s = Some id)); [contradiction |].
      by rewrite Hadd. }
    rewrite (handle_connect_closed s id polite) by done.
    cbn [replicate]. rewrite async_run_cons, settle_addPeer, Hadd.
    unfold buffered.
    destruct (default [] (replayQueue s !! id)) as [|p rest]; cbn [fst snd].
    { simpl. reflexivity. }
    rewrite (settle_replay _ _ (mkPeer polite)) by (simpl; apply lookup_insert_eq).
    simpl.
    destruct (rejects (OnSignalingMessage id p)); reflexivity.
  - (* candidate *)
    apply (alone_negotiation s hs source). simpl. by apply bool_decide_eq_true.
  - (* description *)
    apply (alone_negotiation s hs source). simpl. by apply bool_decide_eq_true.
Qed.

(** Frames that arrive one at a time are dispatched as [dispatch_all]
    has it. *)
Lemma one_at_a_time_dispatch_all frames s hs :
  one_at_a_time rejects frames (s, hs) =
    ((state_of (dispatch_all rejects frames s), hs),
     effects_of (dispatch_all rejects frames s)).
Proof.
  revert s. induction frames as [|data frames IH]; intros s; [reflexivity |].
  cbn [one_at_a_time]. rewrite handler_alone, IH, dispatch_all_cons.
  reflexivity.
Qed.

(** A handler that is resumed, case by case. *)
Lemma resume_addPeer s id polite :
  resume rejects (AwaitAddPeer id polite) s =
    match rejects (AddPeer id polite) with
    | Some e => (Returned None, s, [unknown e])
    | None =>
        let s1 := set_connections (<[id := mkPeer polite]> (connections s)) s in
        match buffered s id with
        | [] => (Returned None, set_replayQueue (delete id (replayQueue s)) s1, [])
        | p :: rest => (Returned (Some (AwaitReplay id (Some p) rest)), s1, [deliver id p])
        end
    end.
Proof.
  unfold resume, caught, awaited, try_catch, replay_from, buffered. unfold_monad.
  destruct (rejects (AddPeer id polite)) as [x|]; simpl; [reflexivity |].
  destruct (default [] (replayQueue s !! id)) as [|p rest]; simpl; [reflexivity |].
  by rewrite lookup_insert_eq.
Qed.

Lemma resume_replay s id p rest :
  resume rejects (AwaitReplay id p rest) s =
    match p ≫= (λ p, rejects (OnSignalingMessage id p)) with
    | Some e => (Returned None, s, [unknown e])
    | None =>
        match rest with
        | [] => (Returned None, set_replayQueue (delete id (replayQueue s)) s, [])
        | p' :: rest' =>
            match connections s !! id with
            | Some _ => (Returned (Some (AwaitReplay id (Some p') rest')), s, [deliver id p'])
            | None => (Returned (Some (AwaitReplay id None rest')), s, [])
            end
        end
    end.
Proof.
  unfold resume, caught, awaited, try_catch, replay_from. unfold_monad.
  destruct p as [p|]; simpl.
  - destruct (rejects (OnSignalingMessage id p)) as [x|]; simpl; [reflexivity |].
    destruct rest as [|p' rest']; simpl; [reflexivity |].
    by destruct (connections s !! id).
  - destruct rest as [|p' rest']; simpl; [reflexivity |].
    by destruct (connections s !! id).
Qed.

Lemma resume_delivery s source p :
  resume rejects (AwaitDelivery source p) s =
    (Returned None, s, reported_rejection (rejects (OnSignalingMessage source p))).
Proof.
  unfold resume, caught, awaited, try_catch. unfold_monad.
  by destruct (rejects (OnSignalingMessage source p)).
Qed.

(** What a handler leaves when it starts: the state of a dispatch that
    registers nobody. *)
Lemma start_dispatched data s :
  dispatched rejects s (state_of (start rejects data s)).
Proof.
  assert (∀ data, start rejects data = caught (dispatch rejects data;; ret None) →
          dispatched rejects s (state_of (start rejects data s))) as Hplain.
  { intros d ->. rewrite caught_plain. simpl. apply handle_dispatched. }
  destruct data as [reason| |type H|p]; try (by apply Hplain).
  destruct p as [game i|game l peer c a d|error|id|lobby_|id polite|id
                |source candidate|source description|credentials];
    try (by apply Hplain).
  - unfold start, caught, try_catch. unfold_monad. simpl.
    destruct (decide (receivedID s = Some id)); constructor.
  - unfold start, caught, try_catch. unfold_monad. simpl.
    destruct (connections s !! source) eqn:Hc; simpl; [constructor |].
    apply (dispatched_buffered rejects s source (CandidatePacket source candidate));
      [exact Hc | simpl; by apply bool_decide_eq_true].
  - unfold start, caught, try_catch. unfold_monad. simpl.
    destruct (connections s !! source) eqn:Hc; simpl; [constructor |].
    apply (dispatched_buffered rejects s source (DescriptionPacket source description));
      [exact Hc | simpl; by apply bool_decide_eq_true].
Qed.

(** The handlers that [start] suspends wait for [_addPeer] or for a
    delivery. *)
Lemma start_suspends data s k :
  outcome_of (start rejects data s) = Returned (Some k) →
  match k with AwaitReplay _ _ _ => False | _ => True end.
Proof.
  assert (∀ data, start rejects data = caught (dispatch rejects data;; ret None) →
          outcome_of (start rejects data s) = Returned (Some k) → False) as Hplain.
  { intros d ->. by rewrite caught_plain. }
  destruct data as [reason| |type H|p];
    try (intros Hk; exfalso; refine (Hplain _ _ Hk); reflexivity).
  destruct p as [game i|game l peer c a d|error|id|lobby_|id polite|id
                |source candidate|source description|credentials];
    try (intros Hk; exfalso; refine (Hplain _ _ Hk); reflexivity);
    unfold start, caught, try_catch; unfold_monad; simpl.
  - destruct (decide (receivedID s = Some id)); simpl; [done |]. by intros [= <-].
  - destruct (connections s !! source); simpl; [| done]. by intros [= <-].
  - destruct (connections s !! source); simpl; [| done]. by intros [= <-].
Qed.

Lemma dispatched_registry s s' id :
  dispatched rejects s s' →
  is_Some (connections s !! id) → is_Some (connections s' !! id).
Proof.
  destruct 1; simpl; try done; intros Hid; apply lookup_insert_is_Some';
    by right.
Qed.

(** From a session without suspended handlers on, a handler is in the
    replay loop of a peer that is registered: the loop always finds the
    peer, and the queue entry it visits is appended to no more. *)
Lemma async_step_registered o sys :
  replays_registered sys → replays_registered (async_step rejects o sys).1.
Proof.
  destruct sys as [s hs]. unfold replays_registered, async_step. cbn [fst snd].
  assert (∀ s', (∀ id, is_Some (connections s !! id) → is_Some (connections s' !! id)) →
          Forall (λ k, match k with
                       | AwaitReplay id _ _ => is_Some (connections s !! id)
                       | _ => True
                       end) hs →
          Forall (λ k, match k with
                       | AwaitReplay id _ _ => is_Some (connections s' !! id)
                       | _ => True
                       end) hs) as Hgrow.
  { intros s' Hs' Hhs. eapply Forall_impl; [exact Hhs |]. intros [| |]; simpl; auto. }
  destruct o as [data|n].
  - pose proof (start_dispatched data s) as Hd.
    pose proof (start_suspends data s) as Hk.
    destruct (start rejects data s) as [[[[k|]|x] s1] e]; simpl in *; intros Hhs;
      try (apply Hgrow; [intros id; by apply dispatched_registry | done]).
    apply Forall_app. split.
    + apply Hgrow; [intros id; by apply dispatched_registry | done].
    + constructor; [| constructor]. specialize (Hk k eq_refl). by destruct k.
  - destruct (hs !! n) as [k|] eqn:Hn; [| done].
    destruct k as [id polite|id p rest|source p].
    + rewrite resume_addPeer.
      destruct (rejects (AddPeer id polite)); cbn [fst snd];
        [intros Hhs; by apply Forall_delete |].
      assert (∀ id', is_Some (connections s !! id') →
                     is_Some (<[id := mkPeer polite]> (connections s) !! id')) as Hs'.
      { intros id' Hid'. apply lookup_insert_is_Some'. by right. }
      destruct (buffered s id) as [|p rest]; cbn [fst snd]; intros Hhs.
      * apply Forall_delete. by apply (Hgrow (set_replayQueue _ (set_connections _ s))).
      * apply Forall_insert; [by apply (Hgrow (set_connections _ s)) |].
        simpl. by rewrite lookup_insert_eq.
    + rewrite resume_replay. intros Hhs.
      pose proof (Forall_lookup_1 _ _ _ _ Hhs Hn) as Hid. simpl in Hid.
      destruct (p ≫= _); cbn [fst snd]; [by apply Forall_delete |].
      destruct rest as [|p' rest']; cbn [fst snd].
      * apply Forall_delete. by apply (Hgrow (set_replayQueue _ s)).
      * destruct (connections s !! id) eqn:Hc; cbn [fst snd];
          [| by destruct Hid as [? [=]]].
        apply Forall_insert; [done |]. simpl. by rewrite Hc.
    + rewrite resume_delivery. cbn [fst snd]. intros Hhs. by apply Forall_delete.
Qed.

Lemma async_run_registered l sys :
  replays_registered sys → replays_registered (async_run rejects l sys).1.
Proof.
  revert sys. induction l as [|o l IH]; intros sys Hinv; [exact Hinv |].
  rewrite async_run_cons. cbn [fst snd]. by apply IH, async_step_registered.
Qed.

Section Flushing.

Variable A : string.
Hypothesis Hok : ∀ p, rejects (OnSignalingMessage A p) = None.

Lemma flushing_delete hs n k :
  hs !! n = Some k → is_replay_of A k = false →
  flushing A hs → flushing A (delete n hs).
Proof.
  unfold flushing. revert n. induction hs as [|h hs IH]; intros n Hn Hk Hf; [done |].
  destruct n as [|n]; simpl in *.
  - inversion Hn; subst. apply Exists_cons in Hf as [Hf|Hf]; [congruence | done].
  - apply Exists_cons in Hf as [Hf|Hf]; [by left | right; by eapply IH].
Qed.

Lemma flushing_insert hs n k k' :
  hs !! n = Some k → is_replay_of A k = false →
  flushing A hs → flushing A (<[n := k']> hs).
Proof.
  unfold flushing. revert n. induction hs as [|h hs IH]; intros n Hn Hk Hf; [done |].
  destruct n as [|n]; simpl in *.
  - inversion Hn; subst. apply Exists_cons in Hf as [Hf|Hf]; [congruence | by right].
  - apply Exists_cons in Hf as [Hf|Hf]; [by left | right; by eapply IH].
Qed.

Lemma flushing_inserted hs n k k' :
  hs !! n = Some k → is_replay_of A k' = true → flushing A (<[n := k']> hs).
Proof.
  unfold flushing. revert n. induction hs as [|h hs IH]; intros n Hn Hk; [done |].
  destruct n as [|n]; simpl in *; [by left | right; by eapply IH].
Qed.

Lemma replay_invariant_deleted id s s' :
  connections s' = connections s →
  replayQueue s' = delete id (replayQueue s) →
  replay_invariant A s → replay_invariant A s'.
Proof.
  unfold replay_invariant. intros -> -> Hinv Hreg.
  destruct (decide (id = A)) as [->|Hne].
  - apply lookup_delete_eq.
  - rewrite lookup_delete_ne by done. by apply Hinv.
Qed.

Lemma arrives_flush_invariant data sys :
  flush_invariant A sys → flush_invariant A (async_step rejects (Arrives data) sys).1.
Proof.
  destruct sys as [s hs]. unfold flush_invariant, async_step. cbn [fst snd].
  pose proof (start_dispatched data s) as Hd.
  destruct (start rejects data s) as [[[[k|]|x] s1] e]; simpl in *;
    (intros [Hinv|Hf]; [left; by eapply dispatched_replay_invariant | right]);
    try done.
  apply Exists_app. by left.
Qed.

Lemma replay_invariant_registered id polite s :
  id ≠ A →
  replay_invariant A s →
  replay_invariant A (set_connections (<[id := mkPeer polite]> (connections s)) s).
Proof.
  unfold replay_invariant. intros Hne Hinv. simpl. by rewrite lookup_insert_ne.
Qed.

Lemma flushed_replay_invariant s :
  replay_invariant A (set_replayQueue (delete A (replayQueue s)) s).
Proof. intros _. apply lookup_delete_eq. Qed.

Lemma settles_flush_invariant n sys :
  flush_invariant A sys → flush_invariant A (async_step rejects (Settles n) sys).1.
Proof.
  destruct sys as [s hs]. unfold flush_invariant, async_step. cbn [fst snd].
  destruct (hs !! n) as [k|] eqn:Hn; [| done].
  destruct k as [id polite|id p rest|source p].
  - (* line 148 *)
    rewrite resume_addPeer.
    destruct (rejects (AddPeer id polite)) as [x|]; cbn [fst snd].
    { intros [Hinv|Hf]; [by left | right; by eapply flushing_delete]. }
    destruct (decide (id = A)) as [->|Hne].
    + destruct (buffered s A) as [|p rest]; cbn [fst snd]; intros _.
      * left. apply (flushed_replay_invariant (set_connections _ s)).
      * right. eapply flushing_inserted; [exact Hn |]. simpl. by apply bool_decide_eq_true.
    + destruct (buffered s id) as [|p rest]; cbn [fst snd]; intros [Hinv|Hf].
      * left.
        apply (replay_invariant_deleted id
                 (set_connections (<[id := mkPeer polite]> (connections s)) s));
          [reflexivity | reflexivity |].
        by apply replay_invariant_registered.
      * right. by eapply flushing_delete.
      * left. by apply replay_invariant_registered.
      * right. by eapply flushing_insert.
  - (* line 150 *)
    rewrite resume_replay.
    destruct (decide (id = A)) as [->|Hne].
    + assert (p ≫= (λ p, rejects (OnSignalingMessage A p)) = None) as ->
        by (destruct p; simpl; auto).
      destruct rest as [|p' rest']; cbn [fst snd]; intros _.
      * left. apply flushed_replay_invariant.
      * right. destruct (connections s !! A); cbn [fst snd];
          (eapply flushing_inserted; [exact Hn |]; simpl; by apply bool_decide_eq_true).
    + assert (is_replay_of A (AwaitReplay id p rest) = false) as Hk
        by (simpl; by apply bool_decide_eq_false).
      destruct (p ≫= _) as [x|]; cbn [fst snd].
      { intros [Hinv|Hf]; [by left | right; by eapply flushing_delete]. }
      destruct rest as [|p' rest']; cbn [fst snd].
      { intros [Hinv|Hf]; [left | right; by eapply flushing_delete].
        by apply (replay_invariant_deleted id s). }
      destruct (connections s !! id); cbn [fst snd];
        (intros [Hinv|Hf]; [by left | right; by eapply flushing_insert]).
  - (* line 163 *)
    rewrite resume_delivery. cbn [fst snd].
    intros [Hinv|Hf]; [by left | right; by eapply flushing_delete].
Qed.

(** Whatever arrives and whatever settles, in whatever order: [A] has
    buffered entries while it is registered only during a flush. *)
Lemma async_run_flush_invariant l sys :
  flush_invariant A sys → flush_invariant A (async_run rejects l sys).1.
Proof.
  revert sys. induction l as [|o l IH]; intros sys Hinv; [exact Hinv |].
  rewrite async_run_cons. cbn [fst snd]. apply IH.
  destruct o; [by apply arrives_flush_invariant | by apply settles_flush_invariant].
Qed.

(** *** The flush among other frames *)

Lemma deliveries_app l1 l2 :
  deliveries A (l1 ++ l2) = deliveries A l1 ++ deliveries A l2.
Proof. apply omap_app. Qed.

Lemma deliveries_same q : deliveries A (deliver A <$> q) = q.
Proof.
  induction q as [|p q IH]; [reflexivity |].
  unfold deliveries in *. simpl.
  destruct (decide (A = A)); [| done]. f_equal. exact IH.
Qed.

Lemma deliveries_rejection x : deliveries A (reported_rejection x) = [].
Proof. by destruct x. Qed.

Lemma deliveries_of_other id p : id ≠ A → deliveries A [deliver id p] = [].
Proof. intros Hne. unfold deliveries. simpl. by destruct (decide (id = A)). Qed.

Lemma filter_flush_nil (hs : list Suspended) :
  filter (λ k, is_flush_of A k = true) hs = [] ↔ Forall (λ k, is_flush_of A k = false) hs.
Proof.
  induction hs as [|h hs IH]; [by split |].
  destruct (is_flush_of A h) eqn:Hh.
  - rewrite filter_cons_True by done. split; [done |].
    intros Hf. apply Forall_cons in Hf as [Hf _]. congruence.
  - rewrite filter_cons_False by congruence. rewrite IH. split.
    + by constructor.
    + intros Hf. by apply Forall_cons in Hf as [_ Hf].
Qed.

Lemma filter_flush_delete (hs : list Suspended) n k :
  hs !! n = Some k → is_flush_of A k = false →
  filter (λ k, is_flush_of A k = true) (delete n hs) = filter (λ k, is_flush_of A k = true) hs.
Proof.
  revert n. induction hs as [|h hs IH]; intros n Hn Hk; [done |].
  destruct n as [|n]; simpl in *.
  - inversion Hn; subst. rewrite filter_cons_False by congruence. reflexivity.
  - destruct (is_flush_of A h) eqn:Hh.
    + rewrite !filter_cons_True by done. f_equal. by apply IH.
    + rewrite !filter_cons_False by congruence. by apply IH.
Qed.

Lemma filter_flush_insert (hs : list Suspended) n k k' :
  hs !! n = Some k → is_flush_of A k = false → is_flush_of A k' = false →
  filter (λ k, is_flush_of A k = true) (<[n := k']> hs) = filter (λ k, is_flush_of A k = true) hs.
Proof.
  revert n. induction hs as [|h hs IH]; intros n Hn Hk Hk'; [done |].
  destruct n as [|n]; simpl in *.
  - inversion Hn; subst. by rewrite !filter_cons_False by congruence.
  - destruct (is_flush_of A h) eqn:Hh.
    + rewrite !filter_cons_True by done. f_equal. by apply IH.
    + rewrite !filter_cons_False by congruence. by apply IH.
Qed.

(** The one handler that flushes [A], wherever it is among the suspended
    handlers. *)
Lemma filter_flush_sole (hs : list Suspended) n k k0 :
  hs !! n = Some k → is_flush_of A k = true → filter (λ k, is_flush_of A k = true) hs = [k0] →
  k = k0 ∧ filter (λ k, is_flush_of A k = true) (delete n hs) = [] ∧
  ∀ k', is_flush_of A k' = true → filter (λ k, is_flush_of A k = true) (<[n := k']> hs) = [k'].
Proof.
  revert n. induction hs as [|h hs IH]; intros n Hn Hk Hf; [done |].
  destruct n as [|n]; simpl in *.
  - inversion Hn; subst. rewrite filter_cons_True in Hf by done.
    inversion Hf; subst. split; [done | split; [done |]].
    intros k' Hk'. rewrite filter_cons_True by done. by f_equal.
  - destruct (is_flush_of A h) eqn:Hh.
    + rewrite filter_cons_True in Hf by done. inversion Hf as [[Hh0 Hnil]].
      apply filter_flush_nil in Hnil.
      eapply Forall_lookup_1 in Hnil; [| exact Hn]. simpl in Hnil. congruence.
    + rewrite filter_cons_False in Hf by congruence.
      destruct (IH n Hn Hk Hf) as (-> & Hd & Hi).
      split; [done | split].
      * by rewrite filter_cons_False by congruence.
      * intros k' Hk'. rewrite filter_cons_False by congruence. by apply Hi.
Qed.

(** A frame that does not name [A] starts a handler that leaves [A]
    alone. *)
Lemma start_other data s :
  concerns A data = false →
  connections (state_of (start rejects data s)) !! A = connections s !! A ∧
  replayQueue (state_of (start rejects data s)) !! A = replayQueue s !! A ∧
  deliveries A (effects_of (start rejects data s)) = [] ∧
  ∀ k, outcome_of (start rejects data s) = Returned (Some k) → is_flush_of A k = false.
Proof.
  intros Hd.
  destruct data as [reason| |type H|p]; try by repeat split.
  destruct p as [game i|game l peer c a d|error|id|lobby_|id polite|id
                |source candidate|source description|credentials];
    simpl in Hd; unfold start, caught, try_catch, dispatch, invoke, when; unfold_monad; simpl.
  - by repeat split.
  - by repeat split.
  - destruct (bool_decide _); by repeat split.
  - destruct (receivedID s); simpl; [by repeat split |].
    destruct (decide (id = "")); by repeat split.
  - destruct (decide (lobby_ = "")); by repeat split.
  - destruct (decide (receivedID s = Some id)); simpl; [by repeat split |].
    split; [done | split; [done | split; [done |]]].
    intros k [= <-]. simpl. done.
  - destruct (connections s !! id); simpl; [| by repeat split].
    destruct (rejects (PeerClose id)); by repeat split.
  - apply bool_decide_eq_false in Hd.
    destruct (connections s !! source); simpl.
    + split; [done | split; [done | split]].
      * unfold deliveries. simpl. by destruct (decide (source = A)).
      * by intros k [= <-].
    + rewrite lookup_insert_ne by done. by repeat split.
  - apply bool_decide_eq_false in Hd.
    destruct (connections s !! source); simpl.
    + split; [done | split; [done | split]].
      * unfold deliveries. simpl. by destruct (decide (source = A)).
      * by intros k [= <-].
    + rewrite lookup_insert_ne by done. by repeat split.
  - by repeat split.
Qed.

(** A handler that does not flush [A] leaves [A] alone when it is
    resumed. *)
Lemma resume_other k s :
  is_flush_of A k = false →
  connections (state_of (resume rejects k s)) !! A = connections s !! A ∧
  replayQueue (state_of (resume rejects k s)) !! A = replayQueue s !! A ∧
  deliveries A (effects_of (resume rejects k s)) = [] ∧
  ∀ k', outcome_of (resume rejects k s) = Returned (Some k') → is_flush_of A k' = false.
Proof.
  intros Hk. destruct k as [id polite|id p rest|source p]; simpl in Hk;
    try apply bool_decide_eq_false in Hk.
  - rewrite resume_addPeer.
    destruct (rejects (AddPeer id polite)); [by repeat split |].
    destruct (buffered s id) as [|p rest]; simpl.
    + rewrite lookup_insert_ne, lookup_delete_ne by done. by repeat split.
    + rewrite lookup_insert_ne by done.
      split; [done | split; [done | split; [by apply deliveries_of_other |]]].
      intros k' [= <-]. simpl. by apply bool_decide_eq_false.
  - rewrite resume_replay.
    destruct (p ≫= _); [by repeat split |].
    destruct rest as [|p' rest']; simpl.
    + rewrite lookup_delete_ne by done. by repeat split.
    + destruct (connections s !! id); simpl.
      * split; [done | split; [done | split; [by apply deliveries_of_other |]]].
        intros k' [= <-]. simpl. by apply bool_decide_eq_false.
      * split; [done | split; [done | split; [done |]]].
        intros k' [= <-]. simpl. by apply bool_decide_eq_false.
  - rewrite resume_delivery. simpl.
    split; [done | split; [done | split; [apply deliveries_rejection | done]]].
Qed.

(** The flush of [A] goes on, or waits, whatever happens but the arrival
    of a frame that names [A]. *)
Lemma flush_progress_step polite q o sys d :
  rejects (AddPeer A polite) = None →
  leaves_alone A o = true →
  flush_progress A polite q sys d →
  flush_progress A polite q (async_step rejects o sys).1
    (d ++ deliveries A (async_step rejects o sys).2).
Proof.
  intros Hadd Ho. destruct sys as [s hs]. destruct o as [data|n].
  - (* a frame for somebody else *)
    apply negb_true_iff in Ho.
    destruct (start_other data s Ho) as (Hc & Hq & He & Hk).
    unfold async_step, flush_progress, buffered. cbn [fst snd].
    destruct (start rejects data s) as [[[[k|]|x] s1] e]; simpl in *;
      rewrite He, app_nil_r, Hc, Hq; try done.
    rewrite filter_app, (filter_cons_False _ k) by (rewrite (Hk k eq_refl); done).
    by rewrite filter_nil, app_nil_r.
  - (* a handler is resumed *)
    unfold async_step. cbn [fst snd].
    destruct (hs !! n) as [k|] eqn:Hn; [| simpl; by rewrite app_nil_r].
    destruct (is_flush_of A k) eqn:Hflush.
    + (* the handler that flushes [A] *)
      intros [(Hf & Hq & ->)|[(p & rest & Hf & Hc & Hd)|(Hf & _)]]; simpl in *.
      * destruct (filter_flush_sole hs n k _ Hn Hflush Hf) as (-> & Hdel & Hins).
        rewrite resume_addPeer, Hadd, Hq.
        destruct q as [|p rest]; cbn [fst snd].
        -- right; right. simpl. rewrite lookup_insert_eq, lookup_delete_eq. by repeat split.
        -- right; left. exists p, rest. simpl. rewrite lookup_insert_eq.
           split; [apply Hins; simpl; by apply bool_decide_eq_true |].
           split; [done |].
           unfold deliveries. simpl. by destruct (decide (A = A)).
      * destruct (filter_flush_sole hs n k _ Hn Hflush Hf) as (-> & Hdel & Hins).
        rewrite resume_replay. simpl. rewrite Hok.
        destruct rest as [|p' rest']; cbn [fst snd].
        -- right; right. simpl. rewrite lookup_delete_eq, !app_nil_r in *. by repeat split.
        -- rewrite Hc. cbn [fst snd]. right; left. exists p', rest'.
           split; [apply Hins; simpl; by apply bool_decide_eq_true |].
           split; [done |].
           unfold deliveries. simpl. destruct (decide (A = A)); [| done].
           simpl. by rewrite <- app_assoc.
      * apply filter_flush_nil in Hf.
        eapply Forall_lookup_1 in Hf; [| exact Hn]. simpl in Hf. congruence.
    + (* another handler *)
      destruct (resume_other k s Hflush) as (Hc & Hq & He & Hk).
      unfold flush_progress, buffered.
      destruct (resume rejects k s) as [[[[k'|]|x] s1] e]; simpl in *;
        rewrite He, app_nil_r, Hc, Hq;
        rewrite ?(filter_flush_delete hs n k Hn Hflush),
                ?(filter_flush_insert hs n k k' Hn Hflush (Hk k' eq_refl));
        done.
Qed.

Lemma flush_progress_run polite q l :
  rejects (AddPeer A polite) = None →
  Forall (λ o, leaves_alone A o = true) l →
  ∀ sys d,
    flush_progress A polite q sys d →
    flush_progress A polite q (async_run rejects l sys).1
      (d ++ deliveries A (async_run rejects l sys).2).
Proof.
  intros Hadd. induction 1 as [|o l Ho _ IH]; intros sys d Hp.
  - simpl. by rewrite app_nil_r.
  - rewrite async_run_cons. cbn [fst snd].
    rewrite deliveries_app, app_assoc. apply IH.
    by apply flush_progress_step.
Qed.

End Flushing.

End Waiting.

(** * The properties of the specification *)

(** ** Identity *)

Lemma welcomes_record_first rejects ids s :
  receivedID (state_of (dispatch_all rejects (Packet ∘ WelcomePacket <$> ids) s)) =
    match receivedID s with
    | Some r => Some r
    | None => first_id ids
    end.
Proof.
  revert s. induction ids as [|id ids IH]; intros s.
  - simpl. by destruct (receivedID s).
  - rewrite fmap_cons, dispatch_all_cons. simpl. rewrite IH.
    destruct (receivedID s) as [r|] eqn:Hr.
    + rewrite (handle_welcome_again rejects s id r Hr). simpl. by rewrite Hr.
    + unfold first_id. destruct (decide (id = "")) as [->|Hne].
      * rewrite (handle_welcome_empty rejects s Hr). simpl. rewrite Hr.
        rewrite filter_cons_False by (intros H; by apply H). reflexivity.
      * rewrite (handle_welcome_first rejects s id Hr Hne). simpl.
        by rewrite filter_cons_True.
Qed.

(** C3: [receivedID] is assigned at most once. A [welcome] with a
    non-empty id that finds it unset records the id and emits "ready";
    every [welcome] that finds it set, whatever its id, leaves it as it is
    and emits "signalingreconnected" instead; a sequence of [welcome]
    packets therefore records the first non-empty id only, and no run of
    the session (frames, socket events, timers) changes an identifier once
    it is recorded. *)
Theorem receivedID_assigned_once rejects s :
  (∀ id, receivedID s = None → id ≠ "" →
     handleSignalingMessage rejects (Packet (WelcomePacket id)) s =
       (Returned tt, set_receivedID (Some id) s,
        [received (Some "welcome"); NetworkEmit ready; PrefetchTURNCredentials])) ∧
  (∀ r id, receivedID s = Some r →
     handleSignalingMessage rejects (Packet (WelcomePacket id)) s =
       (Returned tt, s,
        [received (Some "welcome"); NetworkLog [Some "signaling reconnected"];
         NetworkEmit signalingreconnected])) ∧
  (∀ ids, receivedID s = None →
     receivedID (state_of (dispatch_all rejects (Packet ∘ WelcomePacket <$> ids) s)) =
       first_id ids) ∧
  (∀ r inputs, receivedID s = Some r →
     receivedID (state_of (run rejects inputs s)) = Some r).
Proof.
  split; [| split; [| split]].
  - intros id. apply handle_welcome_first.
  - intros r id. apply handle_welcome_again.
  - intros ids Hs. by rewrite welcomes_record_first, Hs.
  - intros r inputs Hr. revert Hr.
    apply (run_invariant rejects (λ s, receivedID s = Some r)).
    intros i s0. apply step_receivedID.
Qed.

Lemma receivedID_assigned_once_witness :
  handleSignalingMessage reliable (Packet (WelcomePacket "p1")) fresh =
    (Returned tt, set_receivedID (Some "p1") fresh,
     [received (Some "welcome"); NetworkEmit ready; PrefetchTURNCredentials]) ∧
  handleSignalingMessage reliable (Packet (WelcomePacket "p2"))
      (set_receivedID (Some "p1") fresh) =
    (Returned tt, set_receivedID (Some "p1") fresh,
     [received (Some "welcome"); NetworkLog [Some "signaling reconnected"];
      NetworkEmit signalingreconnected]) ∧
  receivedID (state_of (dispatch_all reliable
      (Packet ∘ WelcomePacket <$> [""; "p1"; "p2"]) fresh)) = Some "p1" ∧
  receivedID (state_of (run reliable
      [Message 0%nat (Packet (WelcomePacket "p2")); Close 0%nat]
      (set_receivedID (Some "p1") fresh))) = Some "p1".
Proof.
  split; [| split; [| split]].
  - apply (proj1 (receivedID_assigned_once reliable fresh) "p1");
      [reflexivity | discriminate].
  - apply (proj1 (proj2 (receivedID_assigned_once reliable
             (set_receivedID (Some "p1") fresh))) "p1" "p2").
    reflexivity.
  - apply (proj1 (proj2 (proj2 (receivedID_assigned_once reliable fresh)))
             [""; "p1"; "p2"]).
    reflexivity.
  - apply (proj2 (proj2 (proj2 (receivedID_assigned_once reliable
             (set_receivedID (Some "p1") fresh)))) "p1").
    reflexivity.
Defined.

(** C5: a [welcome] with an empty id (the identifier being unset) and a
    [joined] with an empty lobby each produce exactly one unknown-error
    event, and leave the state of the session as it was. *)
Theorem empty_id_and_lobby_are_unknown_errors rejects s :
  (receivedID s = None →
     handleSignalingMessage rejects (Packet (WelcomePacket "")) s =
       (Returned tt, s,
        [received (Some "welcome"); unknown "missing id on received welcome packet"])) ∧
  handleSignalingMessage rejects (Packet (JoinedPacket "")) s =
    (Returned tt, s,
     [received (Some "joined"); unknown "missing lobby on received connect packet"]).
Proof. split; [apply handle_welcome_empty | apply handle_joined_empty]. Qed.

Lemma empty_id_and_lobby_are_unknown_errors_witness :
  handleSignalingMessage reliable (Packet (WelcomePacket "")) fresh =
    (Returned tt, fresh,
     [received (Some "welcome"); unknown "missing id on received welcome packet"]) ∧
  filter (λ e, is_unknown_error e = true)
    (effects_of (handleSignalingMessage reliable (Packet (JoinedPacket "")) fresh)) =
    [unknown "missing lobby on received connect packet"].
Proof.
  split.
  - apply (proj1 (empty_id_and_lobby_are_unknown_errors reliable fresh)).
    reflexivity.
  - rewrite (proj2 (empty_id_and_lobby_are_unknown_errors reliable fresh)).
    reflexivity.
Defined.

(** ** Peers *)

(** C8: a [connect] packet whose id is the session's own [receivedID] is
    only logged: no peer is added, nothing of the replay queue is
    delivered or deleted, no event is emitted, the state is unchanged. *)
Theorem connect_to_self_is_skipped rejects s id polite :
  receivedID s = Some id →
  handleSignalingMessage rejects (Packet (ConnectPacket id polite)) s =
    (Returned tt, s, [received (Some "connect")]).
Proof. apply handle_connect_self. Qed.

Lemma connect_to_self_is_skipped_witness :
  handleSignalingMessage reliable (Packet (ConnectPacket "me" true))
      (set_receivedID (Some "me") fresh) =
    (Returned tt, set_receivedID (Some "me") fresh, [received (Some "connect")]).
Proof.
  apply (connect_to_self_is_skipped reliable (set_receivedID (Some "me") fresh)).
  reflexivity.
Defined.

(** C10: a [disconnect] packet whose id is not in the peer registry is
    only logged: no peer is closed, no event is emitted, the state is
    unchanged. *)
Theorem disconnect_of_unknown_peer_is_noop rejects s id :
  connections s !! id = None →
  handleSignalingMessage rejects (Packet (DisconnectPacket id)) s =
    (Returned tt, s, [received (Some "disconnect")]).
Proof. apply handle_disconnect_absent. Qed.

Lemma disconnect_of_unknown_peer_is_noop_witness :
  handleSignalingMessage reliable (Packet (DisconnectPacket "Q")) fresh =
    (Returned tt, fresh, [received (Some "disconnect")]).
Proof.
  apply (disconnect_of_unknown_peer_is_noop reliable fresh "Q").
  reflexivity.
Defined.

(** ** Frames that cannot be dispatched *)

Lemma filter_none (f : Effect → bool) (l : list Effect) :
  Forall (λ e, f e = false) l → filter (λ e, f e = true) l = [].
Proof.
  induction 1 as [|e l He _ IH]; [reflexivity |].
  rewrite filter_cons_False by (rewrite He; discriminate). exact IH.
Qed.

Lemma run_frames rejects w k l s :
  sockets s !! w = Some k → listening k = true →
  run rejects (Message w <$> l) s = dispatch_all rejects l s.
Proof.
  revert s. induction l as [|data l IH]; intros s Hw Hl; [reflexivity |].
  rewrite fmap_cons, run_cons, dispatch_all_cons.
  assert (step rejects (Message w data) s = handleSignalingMessage rejects data s) as ->.
  { unfold step. rewrite (fire_listening w _ s k Hw Hl). apply onMessage_handle. }
  simpl. rewrite IH; [reflexivity | | exact Hl].
  destruct (dispatched_same_transport rejects _ _ (handle_dispatched rejects data s))
    as (_ & -> & _).
  exact Hw.
Qed.

(** C6: whatever is thrown while a frame is parsed or dispatched, malformed
    JSON included, is caught by [handleSignalingMessage] and becomes one
    unknown-error event, emitted after what the dispatch had done so far;
    neither [handleSignalingMessage] nor the listener [onMessage] throws;
    the dispatch leaves the sockets, the timers and the reconnection state
    as they were and neither creates, writes to nor closes a socket; and
    the frames that follow on a socket are dispatched one by one, whatever
    happened to this one. *)
Theorem dispatch_failures_are_caught rejects data s :
  outcome_of (onMessage rejects data s) = Returned tt ∧
  outcome_of (handleSignalingMessage rejects data s) = Returned tt ∧
  match dispatch rejects data s with
  | (Returned _, s1, e1) =>
      handleSignalingMessage rejects data s = (Returned tt, s1, e1)
  | (Thrown x, s1, e1) =>
      handleSignalingMessage rejects data s = (Returned tt, s1, e1 ++ [unknown x])
  end ∧
  filter (λ e, is_unknown_error e = true)
      (effects_of (handleSignalingMessage rejects data s)) =
    match outcome_of (dispatch rejects data s) with
    | Returned _ => []
    | Thrown x => [unknown x]
    end ∧
  (∀ reason,
     handleSignalingMessage rejects (Malformed reason) s =
       (Returned tt, s, [unknown reason])) ∧
  same_transport s (state_of (handleSignalingMessage rejects data s)) ∧
  Forall (λ e, touches_transport e = false)
    (effects_of (handleSignalingMessage rejects data s)) ∧
  (∀ w k later, sockets s !! w = Some k → listening k = true →
     run rejects (Message w <$> data :: later) s =
       dispatch_all rejects (data :: later) s).
Proof.
  split; [| split; [| split; [| split; [| split; [| split; [| split]]]]]].
  - rewrite onMessage_handle. apply handle_returns.
  - apply handle_returns.
  - apply handle_catches.
  - pose proof (handle_catches rejects data s) as H.
    pose proof (dispatch_effects rejects data s) as He.
    assert (Forall (λ e, is_unknown_error e = false)
              (effects_of (dispatch rejects data s))) as Hu.
    { eapply Forall_impl; [exact He |]. by intros ? []. }
    destruct (dispatch rejects data s) as [[[[]|x] s1] e1]; rewrite H; simpl in *.
    + by apply filter_none.
    + rewrite filter_app, (filter_none _ _ Hu). reflexivity.
  - intros reason. apply handle_malformed.
  - apply (dispatched_same_transport rejects), handle_dispatched.
  - apply handle_effects.
  - intros w k later. apply run_frames.
Qed.

Lemma dispatch_failures_are_caught_witness :
  run reliable (Message 0%nat <$> [Malformed "Unexpected token"; Packet (JoinedPacket "L")])
      fresh =
    dispatch_all reliable [Malformed "Unexpected token"; Packet (JoinedPacket "L")] fresh.
Proof.
  apply (proj2 (proj2 (proj2 (proj2 (proj2 (proj2 (proj2
    (dispatch_failures_are_caught reliable (Malformed "Unexpected token") fresh))))))) 0%nat
    (mkWebSocket CONNECTING true) [Packet (JoinedPacket "L")]);
    reflexivity.
Defined.

(** C7, as the code has it, for the frames of valid JSON that are no
    packet of the union. A value other than [null] whose [type] is none of
    the discriminants matches no [case] of the [switch]: it is logged and
    otherwise ignored; nothing is thrown, no event is emitted, an
    unknown-error no more than another, and the state is unchanged. The
    value [null] has no [type] to read: the [TypeError] of line 110 is
    caught and reported as one unknown-error, nothing is logged, nothing
    is thrown and the state is unchanged. *)
Theorem foreign_type_is_ignored rejects s :
  (∀ type (H : is_discriminant type = false),
     handleSignalingMessage rejects (Foreign type H) s =
       (Returned tt, s, [received type])) ∧
  handleSignalingMessage rejects Null s =
    (Returned tt, s, [unknown "TypeError: cannot read properties of null"]).
Proof. split; [intros type H; apply handle_foreign | reflexivity]. Qed.

Lemma foreign_type_is_ignored_witness :
  is_discriminant (Some "ping") = false ∧
  handleSignalingMessage reliable (Foreign (Some "ping") eq_refl) fresh =
    (Returned tt, fresh, [received (Some "ping")]).
Proof.
  split; [reflexivity |].
  apply (proj1 (foreign_type_is_ignored reliable fresh) (Some "ping") eq_refl).
Defined.

(** C7 as stated fails: the frame [{type: ping}] produces no unknown-error
    event, nor any other event. *)
Lemma foreign_type_emits_no_unknown_error :
  ¬ ∃ e, e ∈ effects_of (handleSignalingMessage reliable
                           (Foreign (Some "ping") eq_refl) fresh) ∧
         is_unknown_error e = true.
Proof.
  intros (e & He & Hu). simpl in He.
  apply list_elem_of_singleton in He. subst e. discriminate.
Qed.

(** ** The replay queue *)

(** C1, as the code has it, for a peer identifier [A] whose deliveries do
    not fail. A [candidate] or [description] packet of source [A] that
    arrives while [A] is not registered is appended to the replay queue
    under [A]. When a [connect] packet for [A] arrives, [A] not being the
    session's own identifier, the peer being registered without failure and
    no other [connect] for [A] being under way, then whatever arrives and
    whatever settles until its handler has finished, except a frame that
    names [A]: the peer receives the buffered packets in arrival order and
    nothing else, and once the handler has finished it has received them
    all, the queue entry is deleted, and a packet for [A] that arrives then
    is delivered after them. The handler does finish when it is resumed
    once for [_addPeer] and once for each buffered packet. And whatever
    arrives and settles, in any order, [A] is registered and buffered for
    only while a handler is in the replay loop of [A]. *)
Theorem replay_queue_flushed_on_connect rejects A s hs :
  (∀ p, rejects (OnSignalingMessage A p) = None) →
  (∀ p, is_negotiation_for A p = true → connections s !! A = None →
     async_step rejects (Arrives (Packet p)) (s, hs) =
       ((set_replayQueue (<[A := buffered s A ++ [p]]> (replayQueue s)) s, hs),
        [received (Some (packet_type p))])) ∧
  (∀ polite l,
     receivedID s ≠ Some A → rejects (AddPeer A polite) = None →
     Forall (λ k, is_flush_of A k = false) hs →
     Forall (λ o, leaves_alone A o = true) l →
     let r := async_run rejects (Arrives (Packet (ConnectPacket A polite)) :: l) (s, hs) in
     (∃ n, deliveries A r.2 = take n (buffered s A)) ∧
     (Forall (λ k, is_flush_of A k = false) r.1.2 →
        deliveries A r.2 = buffered s A ∧
        connections r.1.1 !! A = Some (mkPeer polite) ∧
        replayQueue r.1.1 !! A = None ∧
        ∀ q, is_negotiation_for A q = true →
          deliveries A (r.2 ++ (async_step rejects (Arrives (Packet q)) r.1).2) =
            buffered s A ++ [q])) ∧
  (∀ polite,
     receivedID s ≠ Some A → rejects (AddPeer A polite) = None →
     async_run rejects
       (Arrives (Packet (ConnectPacket A polite))
          :: replicate (S (length (buffered s A))) (Settles (length hs))) (s, hs) =
       ((set_replayQueue (delete A (replayQueue s))
           (set_connections (<[A := mkPeer polite]> (connections s)) s), hs),
        [received (Some "connect"); Invoke (AddPeer A polite)]
          ++ (deliver A <$> buffered s A))) ∧
  (∀ l, flush_invariant A (s, hs) →
     flush_invariant A (async_run rejects l (s, hs)).1).
Proof.
  intros Hok. split; [| split; [| split]].
  - intros p. apply arrives_negotiation_buffered.
  - intros polite l Hself Hadd Hhs Hl r. subst r.
    rewrite async_run_cons, arrives_connect by done. cbn [fst snd].
    rewrite (deliveries_app A). change (deliveries A [_; _]) with (@nil SignalingPacketTypes).
    rewrite app_nil_l.
    assert (flush_progress A polite (buffered s A) (s, hs ++ [AwaitAddPeer A polite]) [])
      as Hstart.
    { left. cbn [fst snd]. split; [| done].
      apply filter_flush_nil in Hhs.
      rewrite filter_app, Hhs, filter_cons_True by (simpl; by apply bool_decide_eq_true).
      reflexivity. }
    pose proof (flush_progress_run rejects A Hok polite _ l Hadd Hl _ _ Hstart) as Hp.
    rewrite app_nil_l in Hp.
    destruct (async_run rejects l (s, hs ++ [AwaitAddPeer A polite])) as [[s' hs'] e'].
    unfold flush_progress in Hp. cbn [fst snd] in *. split.
    + destruct Hp as [(_ & _ & ->)|[(p & rest & _ & _ & <-)|(_ & _ & _ & ->)]].
      * by exists 0%nat.
      * exists (length (deliveries A e')). by rewrite take_app_length.
      * exists (length (buffered s A)). by rewrite firstn_all.
    + intros Hdone. apply filter_flush_nil in Hdone.
      destruct Hp as [(Hf & _)|[(p & rest & Hf & _)|(_ & Hc & Hq & Hd)]];
        [congruence | congruence |].
      split; [done | split; [done | split; [done |]]].
      intros q Hq'.
      rewrite (arrives_negotiation_registered rejects s' hs' A q (mkPeer polite)) by done.
      cbn [fst snd]. rewrite !(deliveries_app A), Hd.
      unfold deliveries. simpl. by destruct (decide (A = A)).
  - intros polite Hself Hadd.
    assert (Arrives (Packet (ConnectPacket A polite))
              :: replicate (S (length (buffered s A))) (Settles (length hs)) =
            alone rejects (Packet (ConnectPacket A polite)) (s, hs)) as ->.
    { unfold alone, awaits, buffered. cbn [fst snd].
      destruct (decide (receivedID s = Some A)); [contradiction |].
      by rewrite Hadd, loop_awaits_ok. }
    by rewrite handler_alone, handle_connect.
  - intros l. by apply async_run_flush_invariant.
Qed.

Lemma replay_queue_flushed_on_connect_witness :
  let waiting := [Arrives (Packet (DescriptionPacket "Q" "offer"));
                  Arrives (Packet (CandidatePacket "Q" "c1"))] in
  let s := (async_run reliable waiting (fresh, [])).1.1 in
  let r := async_run reliable
             [Arrives (Packet (ConnectPacket "Q" true));
              Settles 0%nat;
              Arrives (Packet (CandidatePacket "R" "c"));
              Settles 0%nat;
              Settles 0%nat] (s, []) in
  deliveries "Q" (r.2 ++ (async_step reliable
                            (Arrives (Packet (CandidatePacket "Q" "c2"))) r.1).2) =
    [DescriptionPacket "Q" "offer"; CandidatePacket "Q" "c1"; CandidatePacket "Q" "c2"].
Proof.
  intros waiting s r.
  pose proof (replay_queue_flushed_on_connect reliable "Q" s [] (λ _, eq_refl))
    as (_ & Hflush & _).
  destruct (Hflush true
              [Settles 0%nat; Arrives (Packet (CandidatePacket "R" "c"));
               Settles 0%nat; Settles 0%nat])
    as (_ & Hdone).
  - discriminate.
  - reflexivity.
  - constructor.
  - repeat constructor.
  - destruct Hdone as (_ & _ & _ & Hlater).
    + vm_compute. constructor.
    + exact (Hlater (CandidatePacket "Q" "c2") eq_refl).
Defined.

(** C1 as stated fails in two ways. For the session's own identifier the
    [connect] packet is skipped, so that the packet buffered under that
    identifier is neither delivered nor deleted. And a packet for a peer
    that arrives while the queue of that peer is being flushed is delivered
    at once, before the buffered packets that still wait: the peer, which
    is registered while its queue still has its entry, receives [c1], then
    [c3], then [c2]. *)
Lemma buffered_packets_are_skipped_or_overtaken :
  (let r := async_run reliable
              [Arrives (Packet (WelcomePacket "A"));
               Arrives (Packet (CandidatePacket "A" "c"));
               Arrives (Packet (ConnectPacket "A" true))] (fresh, []) in
   r.2 =
     [received (Some "welcome"); NetworkEmit ready; PrefetchTURNCredentials;
      received (Some "candidate"); received (Some "connect")] ∧
   connections r.1.1 !! "A" = None ∧
   replayQueue r.1.1 !! "A" = Some [CandidatePacket "A" "c"] ∧
   r.1.2 = []) ∧
  (let flush := [Arrives (Packet (CandidatePacket "Q" "c1"));
                 Arrives (Packet (CandidatePacket "Q" "c2"));
                 Arrives (Packet (ConnectPacket "Q" true));
                 Settles 0%nat] in
   let m := async_run reliable flush (fresh, []) in
   let r := async_run reliable
              (flush ++ [Arrives (Packet (CandidatePacket "Q" "c3"));
                         Settles 0%nat; Settles 0%nat; Settles 0%nat]) (fresh, []) in
   connections m.1.1 !! "Q" = Some (mkPeer true) ∧
   replayQueue m.1.1 !! "Q" = Some [CandidatePacket "Q" "c1"; CandidatePacket "Q" "c2"] ∧
   r.2 =
     [received (Some "candidate"); received (Some "candidate");
      received (Some "connect"); Invoke (AddPeer "Q" true);
      deliver "Q" (CandidatePacket "Q" "c1");
      received (Some "candidate"); deliver "Q" (CandidatePacket "Q" "c3");
      deliver "Q" (CandidatePacket "Q" "c2")] ∧
   deliveries "Q" r.2 =
     [CandidatePacket "Q" "c1"; CandidatePacket "Q" "c3"; CandidatePacket "Q" "c2"] ∧
   replayQueue r.1.1 !! "Q" = None ∧
   r.1.2 = []).
Proof. vm_compute. repeat split. Qed.

(** A peer that rejects a buffered packet interrupts the flush: the error
    is reported, the peer stays registered and the queue entry stays. *)
Example rejected_delivery_keeps_the_queue :
  let rejects := λ c, match c with
                      | OnSignalingMessage _ _ => Some "InvalidStateError"
                      | _ => None
                      end in
  let r := dispatch_all rejects
             [Packet (CandidatePacket "Q" "c"); Packet (ConnectPacket "Q" true)] fresh in
  effects_of r =
    [received (Some "candidate"); received (Some "connect");
     Invoke (AddPeer "Q" true); deliver "Q" (CandidatePacket "Q" "c");
     unknown "InvalidStateError"] ∧
  connections (state_of r) !! "Q" = Some (mkPeer true) ∧
  replayQueue (state_of r) !! "Q" = Some [CandidatePacket "Q" "c"].
Proof. vm_compute. repeat split. Qed.

(** The session of the specification's example: [welcome], [joined], a
    [description] of a peer still unknown, then its [connect]. *)
Example session_example :
  let r := run reliable
             [Open 0%nat;
              Message 0%nat (Packet (WelcomePacket "P"));
              Message 0%nat (Packet (JoinedPacket "L"));
              Message 0%nat (Packet (DescriptionPacket "Q" "offer"));
              Message 0%nat (Packet (ConnectPacket "Q" true))] fresh in
  effects_of r =
    [NetworkLog [Some "sending signaling packet:"; Some "hello"];
     WsSend 0 (HelloPacket "game" None);
     received (Some "welcome"); NetworkEmit ready; PrefetchTURNCredentials;
     received (Some "joined"); NetworkEmit (lobby "L");
     received (Some "description");
     received (Some "connect"); Invoke (AddPeer "Q" true);
     deliver "Q" (DescriptionPacket "Q" "offer")] ∧
  receivedID (state_of r) = Some "P" ∧
  currentLobby (state_of r) = Some "L" ∧
  connections (state_of r) !! "Q" = Some (mkPeer true) ∧
  replayQueue (state_of r) !! "Q" = None.
Proof. vm_compute. repeat split. Qed.

(** ** Reconnection *)

Section Reconnection.

Variable rejects : Call → option Exn.

Lemma step_Error_closed_schedules s w k e :
  sockets s !! w = Some k → listening k = true →
  closing (network s) = false → reconnectAttempt s ≤ 42 →
  step rejects (Error w e CLOSED) s =
    (Returned tt, rescheduled (set_reconnecting false (moved w CLOSED s)),
     reported (network s) (websocket_error e)
       ++ (SetTimeout <$> reconnect_timers (reconnectAttempt s))).
Proof.
  intros Hw Hl Hc Ha. unfold step, set_readyState.
  unfold bind at 1, modify at 1. fold (moved w CLOSED s).
  assert (sockets (moved w CLOSED s) !! w = Some (mkWebSocket CLOSED (listening k))) as Hw'.
  { simpl. by rewrite list_lookup_alter_eq, Hw. }
  rewrite (fire_listening w _ _ _ Hw' Hl).
  by rewrite (onError_closed_schedules (moved w CLOSED s) w e _ Hw').
Qed.

Lemma step_Close_pending s w k :
  sockets s !! w = Some k → listening k = true →
  closing (network s) = false → reconnecting s = true →
  step rejects (Close w) s =
    (Returned tt, unlistened w (moved w CLOSED s), reported (network s) socket_closed).
Proof.
  intros Hw Hl Hc Hr. unfold step, set_readyState.
  unfold bind at 1, modify at 1. fold (moved w CLOSED s).
  rewrite (fire_listening w _ _ (mkWebSocket CLOSED (listening k)));
    [| simpl; by rewrite list_lookup_alter_eq, Hw | exact Hl].
  exec. rewrite Hc. simpl. unfold reported, unlistened.
  destruct (bool_decide _); simpl; rewrite Hr; reflexivity.
Qed.

(** A connect timer that expires, and the socket it creates opening: the
    [hello] carries the identifier of the session. *)
Lemma run_Timeout_Open s k d :
  timers s !! k = Some (ConnectTimer d) →
  let w := length (sockets s) in
  run rejects [Timeout k; Open w] s =
    (Returned tt, opened (moved w OPEN (reconnected k s)), WsNew w :: hello w s).
Proof.
  intros Hk w. rewrite run_cons, (step_Timeout_connect rejects s k d Hk).
  simpl. rewrite run_cons.
  rewrite (step_Open rejects (reconnected k s) w (mkWebSocket CONNECTING true));
    [reflexivity | | reflexivity | reflexivity].
  simpl. by rewrite list_lookup_middle.
Qed.

Lemma not_SetTimeout e : touches_transport e = false → is_SetTimeout e = false.
Proof. by destruct e. Qed.

(** Beyond the ceiling no failure and no frame arms a timer. *)
Lemma step_beyond_ceiling i s :
  42 < reconnectAttempt s → is_failure_or_frame i = true →
  timers (state_of (step rejects i s)) = timers s ∧
  reconnectAttempt (state_of (step rejects i s)) = reconnectAttempt s ∧
  Forall (λ e, is_SetTimeout e = false) (effects_of (step rejects i s)).
Proof.
  intros Ha Hi. destruct i as [w|w e rs|w data|w|k]; try discriminate; unfold step.
  2: { destruct (fire_cases w (onMessage rejects data) s) as [-> | ->];
         [| by repeat split].
       rewrite onMessage_handle.
       destruct (dispatched_same_transport rejects _ _ (handle_dispatched rejects data s))
         as (_ & _ & -> & _ & -> & _).
       repeat split.
       eapply Forall_impl; [apply handle_effects |]. apply not_SetTimeout. }
  all: unfold fire, set_readyState; exec; branch;
    repeat match goal with
    | H : (42 <? _) = false |- _ => apply Z.ltb_ge in H; simpl in H; lia
    end;
    by repeat constructor.
Qed.

Lemma run_beyond_ceiling l s :
  42 < reconnectAttempt s →
  Forall (λ i, is_failure_or_frame i = true) l →
  timers (state_of (run rejects l s)) = timers s ∧
  reconnectAttempt (state_of (run rejects l s)) = reconnectAttempt s ∧
  Forall (λ e, is_SetTimeout e = false) (effects_of (run rejects l s)).
Proof.
  intros Ha Hl. revert s Ha.
  induction Hl as [|i l Hi _ IH]; intros s Ha; [by repeat split |].
  rewrite run_cons. simpl.
  destruct (step_beyond_ceiling i s Ha Hi) as (Ht & Hn & He).
  destruct (IH (state_of (step rejects i s))) as (Ht' & Hn' & He'); [by rewrite Hn |].
  rewrite Ht', Hn', Ht, Hn. repeat split. by apply Forall_app.
Qed.

End Reconnection.

(** C2, as the code has it: while the attempt counter does not exceed 42,
    a transport that fails without the application closing it (a close
    event while no reconnect is pending, or an error of the closed socket
    followed by its close event) has a connect() scheduled, and the
    [hello] sent when the resulting socket opens carries the identifier
    the session had received. Once the counter exceeds 42, every call of
    [reconnect] that its guard lets through emits one "failed" event and
    one socket-error, schedules nothing and changes nothing, so that the
    next call does the same; and whatever failures and frames follow, no
    timer is armed. *)
Theorem reconnect_until_the_ceiling rejects s :
  (∀ w k, sockets s !! w = Some k → listening k = true →
     closing (network s) = false → reconnecting s = false →
     reconnectAttempt s ≤ 42 →
     let w' := length (sockets s) in
     let r := run rejects [Close w; Timeout (S (length (timers s))); Open w'] s in
     effects_of r =
       reported (network s) socket_closed
         ++ (SetTimeout <$> reconnect_timers (reconnectAttempt s))
         ++ WsNew w' :: hello w' s ∧
     ws (state_of r) = w' ∧ receivedID (state_of r) = receivedID s) ∧
  (∀ w k e, sockets s !! w = Some k → listening k = true →
     closing (network s) = false → reconnectAttempt s ≤ 42 →
     let w' := length (sockets s) in
     let r := run rejects
                [Error w e CLOSED; Close w; Timeout (S (length (timers s))); Open w'] s in
     effects_of r =
       reported (network s) (websocket_error e)
         ++ (SetTimeout <$> reconnect_timers (reconnectAttempt s))
         ++ reported (network s) socket_closed
         ++ WsNew w' :: hello w' s ∧
     ws (state_of r) = w' ∧ receivedID (state_of r) = receivedID s) ∧
  (closing (network s) = false → reconnecting s = false →
     42 < reconnectAttempt s →
     reconnect s = (Returned tt, s, giving_up)) ∧
  (42 < reconnectAttempt s →
     ∀ inputs, Forall (λ i, is_failure_or_frame i = true) inputs →
       timers (state_of (run rejects inputs s)) = timers s ∧
       Forall (λ e, is_SetTimeout e = false) (effects_of (run rejects inputs s))).
Proof.
  split; [| split; [| split]].
  - intros w k Hw Hl Hc Hr Ha w' r. subst r.
    rewrite run_cons, (step_Close_schedules rejects s w k Hw Hl Hc Hr Ha).
    cbn [state_of effects_of outcome_of fst snd].
    set (s1 := rescheduled (unlistened w (moved w CLOSED s))).
    assert (length (sockets s1) = w') as Hlen by (simpl; by rewrite !length_alter).
    pose proof (run_Timeout_Open rejects s1 (S (length (timers s)))
                  (100 * reconnectAttempt s)) as Hrun.
    rewrite Hlen in Hrun. rewrite Hrun.
    + cbn [state_of effects_of outcome_of fst snd]. by rewrite <- app_assoc.
    + simpl. rewrite lookup_app_r by lia.
      by replace (S (length (timers s)) - length (timers s))%nat with 1%nat by lia.
  - intros w k e Hw Hl Hc Ha w' r. subst r.
    rewrite run_cons, (step_Error_closed_schedules rejects s w k e Hw Hl Hc Ha).
    cbn [state_of effects_of outcome_of fst snd].
    set (s1 := rescheduled (set_reconnecting false (moved w CLOSED s))).
    rewrite run_cons.
    rewrite (step_Close_pending rejects s1 w (mkWebSocket CLOSED (listening k)));
      [| simpl; by rewrite list_lookup_alter_eq, Hw | exact Hl | exact Hc | reflexivity].
    cbn [state_of effects_of outcome_of fst snd].
    set (s2 := unlistened w (moved w CLOSED s1)).
    assert (length (sockets s2) = w') as Hlen by (simpl; by rewrite !length_alter).
    pose proof (run_Timeout_Open rejects s2 (S (length (timers s)))
                  (100 * reconnectAttempt s)) as Hrun.
    rewrite Hlen in Hrun. rewrite Hrun.
    + cbn [state_of effects_of outcome_of fst snd]. by rewrite <- !app_assoc.
    + simpl. rewrite lookup_app_r by lia.
      by replace (S (length (timers s)) - length (timers s))%nat with 1%nat by lia.
  - intros Hc Hr Ha. by apply reconnect_gives_up.
  - intros Ha inputs Hin.
    destruct (run_beyond_ceiling rejects inputs s Ha Hin) as (Ht & _ & He).
    by split.
Qed.

Lemma reconnect_until_the_ceiling_witness :
  effects_of (run reliable
      [Error 0%nat (ErrorEvent "refused") CLOSED; Close 0%nat; Timeout 1%nat; Open 1%nat]
      (set_receivedID (Some "p1") fresh)) =
    reported quiet_network (websocket_error (ErrorEvent "refused"))
      ++ (SetTimeout <$> reconnect_timers 0)
      ++ reported quiet_network socket_closed
      ++ [WsNew 1; NetworkLog [Some "sending signaling packet:"; Some "hello"];
          WsSend 1 (HelloPacket "game" (Some "p1"))] ∧
  reconnect (set_reconnectAttempt 43 fresh) =
    (Returned tt, set_reconnectAttempt 43 fresh, giving_up).
Proof.
  split.
  - apply (proj1 (proj2 (reconnect_until_the_ceiling reliable
             (set_receivedID (Some "p1") fresh)))
             0%nat (mkWebSocket CONNECTING true) (ErrorEvent "refused"));
      [reflexivity | reflexivity | reflexivity | by vm_compute].
  - apply (proj1 (proj2 (proj2 (reconnect_until_the_ceiling reliable
             (set_reconnectAttempt 43 fresh)))));
      [reflexivity | reflexivity | by vm_compute].
Defined.

(** The ceiling is inclusive: with the counter at 42 a reconnect is still
    scheduled, and the counter becomes 43. *)
Example attempt_42_still_reconnects :
  let r := reconnect (set_reconnectAttempt 42 fresh) in
  effects_of r = SetTimeout <$> reconnect_timers 42 ∧
  reconnectAttempt (state_of r) = 43.
Proof. by vm_compute. Qed.

(** C2 as stated fails: after 43 connections of a new session have
    failed one after the other the counter is 43; the error and the close
    event of the next socket that fails both reach [reconnect], and
    "failed" is emitted twice. *)
Lemma failed_is_emitted_twice :
  reconnectAttempt (state_of (run reliable (failures 43) fresh)) = 43 ∧
  filter (λ e, is_failed e = true)
    (effects_of (run reliable (failures 43) fresh)) = [] ∧
  filter (λ e, is_failed e = true)
    (effects_of (run reliable
       (failures 43 ++ [Error 43%nat refused CLOSED; Close 43%nat]) fresh)) =
    [NetworkEmit failed; NetworkEmit failed].
Proof. by vm_compute. Qed.

(** ** One reconnect at a time *)

Lemma pending_rescheduled s :
  pending_reconnects (rescheduled s) = S (pending_reconnects s).
Proof.
  unfold pending_reconnects, rescheduled. simpl.
  rewrite filter_app, length_app. simpl. lia.
Qed.

Lemma filter_delete_length {A} (P : A → Prop) `{∀ x, Decision (P x)} k (l : list A) :
  (length (filter P (delete k l)) ≤ length (filter P l))%nat.
Proof.
  revert k. induction l as [|x l IH]; intros k; [by destruct k |].
  destruct k as [|k]; simpl.
  - rewrite filter_cons. destruct (decide (P x)); simpl; lia.
  - rewrite !filter_cons. specialize (IH k).
    destruct (decide (P x)); simpl; lia.
Qed.

Lemma one_pending_ext s s' :
  (pending_reconnects s' ≤ pending_reconnects s)%nat →
  reconnecting s' = reconnecting s →
  one_pending s → one_pending s'.
Proof.
  intros Hp Hr [Hle Hz]. split; [lia |].
  rewrite Hr. intros H. specialize (Hz H). lia.
Qed.

Lemma reconnect_cases s :
  reconnect s = (Returned tt, s, []) ∨
  reconnect s = (Returned tt, s, giving_up) ∨
  reconnecting s = false ∧
  reconnect s =
    (Returned tt, rescheduled s, SetTimeout <$> reconnect_timers (reconnectAttempt s)).
Proof.
  destruct (reconnecting s) eqn:Hr; [left; apply reconnect_noop; by left |].
  destruct (closing (network s)) eqn:Hc; [left; apply reconnect_noop; by right |].
  destruct (Z.le_gt_cases (reconnectAttempt s) 42).
  - right. right. split; [reflexivity |]. by apply reconnect_schedules.
  - right. left. apply reconnect_gives_up; [done | done | lia].
Qed.

Lemma reconnect_one_pending s :
  one_pending s → one_pending (state_of (reconnect s)).
Proof.
  intros Hs. destruct (reconnect_cases s) as [-> | [-> | [Hr ->]]]; try exact Hs.
  destruct Hs as [_ Hz]. specialize (Hz Hr).
  simpl. split; [rewrite pending_rescheduled; lia | discriminate].
Qed.

Section Pending.

Variable rejects : Call → option Exn.

Lemma onClose_state w s :
  state_of (onClose w s) = state_of (reconnect (unlistened w s)).
Proof.
  unfold onClose, when, bind, get, modify, tell, ret. simpl.
  destruct (closing (network s)); simpl.
  - fold (unlistened w s). by destruct (reconnect (unlistened w s)) as [[? ?] ?].
  - destruct (bool_decide _); simpl; fold (unlistened w s);
      by destruct (reconnect (unlistened w s)) as [[? ?] ?].
Qed.

Lemma onError_state w e s :
  state_of (onError w e s) =
    if bool_decide (readyState <$> sockets s !! w = Some CLOSED)
    then state_of (reconnect (set_reconnecting false s))
    else s.
Proof.
  unfold onError, when, bind, get, modify, tell, ret. simpl.
  destruct (bool_decide (listenerCount_signalingerror _ = _)); simpl;
    (destruct (bool_decide (readyState <$> sockets s !! w = Some CLOSED)); simpl;
     [by destruct (reconnect (set_reconnecting false s)) as [[? ?] ?] | reflexivity]).
Qed.

Lemma bind_modify_state f (m : M unit) s :
  state_of (bind (modify f) (λ _, m) s) = state_of (m (f s)).
Proof. unfold bind, modify. by destruct (m (f s)) as [[? ?] ?]. Qed.

Lemma fire_state w (listener : M unit) s :
  state_of (fire w listener s) = state_of (listener s) ∨ state_of (fire w listener s) = s.
Proof. destruct (fire_cases w listener s) as [-> | ->]; auto. Qed.

(** A step keeps at most one reconnect pending, provided a socket opens
    or fails with an error only while none is. *)
Lemma step_one_pending i s :
  (clears_flag i = true → pending_reconnects s = 0%nat) →
  one_pending s → one_pending (state_of (step rejects i s)).
Proof.
  intros Hclear Hs. destruct i as [w|w e rs|w data|w|k]; unfold step.
  - (* open *)
    unfold set_readyState. rewrite bind_modify_state. fold (moved w OPEN s).
    destruct (fire_state w onOpen (moved w OPEN s)) as [-> | ->]; [| exact Hs].
    unfold onOpen, send. unfold_monad. simpl.
    pose proof (Hclear eq_refl) as Hnone.
    destruct (readyState <$> _) as [[]|]; simpl;
      (unfold one_pending, pending_reconnects in *; simpl; rewrite Hnone;
       split; [lia | done]).
  - (* error *)
    unfold set_readyState. rewrite bind_modify_state. fold (moved w rs s).
    destruct (fire_state w (onError w e) (moved w rs s)) as [-> | ->]; [| exact Hs].
    rewrite onError_state. case_bool_decide as Hclosed; [| exact Hs].
    assert (rs = CLOSED) as ->.
    { simpl in Hclosed. rewrite list_lookup_alter_eq in Hclosed.
      destruct (sockets s !! w); simpl in Hclosed; congruence. }
    apply reconnect_one_pending.
    pose proof (Hclear eq_refl) as Hnone.
    unfold one_pending, pending_reconnects in *; simpl; rewrite Hnone.
    split; [lia | done].
  - (* message *)
    destruct (fire_state w (onMessage rejects data) s) as [-> | ->]; [| exact Hs].
    rewrite onMessage_handle.
    destruct (dispatched_same_transport rejects _ _ (handle_dispatched rejects data s))
      as (_ & _ & Ht & Hr & _).
    eapply one_pending_ext; [| exact Hr | exact Hs].
    unfold pending_reconnects. by rewrite Ht.
  - (* close *)
    unfold set_readyState. rewrite bind_modify_state. fold (moved w CLOSED s).
    destruct (fire_state w (onClose w) (moved w CLOSED s)) as [-> | ->]; [| exact Hs].
    rewrite onClose_state. by apply reconnect_one_pending.
  - (* timeout *)
    unfold connect_callback, connect, event_callback, send. unfold_monad. simpl.
    destruct (timers s !! k) as [[d|c a d]|]; simpl; [| | exact Hs].
    + eapply one_pending_ext; [| | exact Hs]; [| reflexivity].
      apply filter_delete_length.
    + destruct (readyState <$> _) as [[]|]; simpl;
        (eapply one_pending_ext; [| | exact Hs]; [| reflexivity];
         apply filter_delete_length).
Qed.

(** *** The sockets that are live *)

Lemma live_alter_same (f : WebSocket → WebSocket) w (l : list WebSocket) :
  (∀ k, l !! w = Some k → readyState (f k) ≠ CLOSED ↔ readyState k ≠ CLOSED) →
  length (filter (λ k, readyState k ≠ CLOSED) (alter f w l)) =
    length (filter (λ k, readyState k ≠ CLOSED) l).
Proof.
  revert w. induction l as [|x l IH]; intros w Hf; [by destruct w |].
  destruct w as [|w]; simpl.
  - specialize (Hf x eq_refl). rewrite !filter_cons.
    destruct (decide (readyState (f x) ≠ CLOSED)), (decide (readyState x ≠ CLOSED));
      simpl; tauto.
  - rewrite !filter_cons. specialize (IH w Hf).
    change (list_alter f w l) with (alter f w l).
    destruct (decide (readyState x ≠ CLOSED)); simpl; by rewrite IH.
Qed.

Lemma live_alter_closed (f : WebSocket → WebSocket) w (l : list WebSocket) k :
  l !! w = Some k → readyState k ≠ CLOSED → readyState (f k) = CLOSED →
  S (length (filter (λ k, readyState k ≠ CLOSED) (alter f w l))) =
    length (filter (λ k, readyState k ≠ CLOSED) l).
Proof.
  revert w. induction l as [|x l IH]; intros w Hw Hk Hf; [by destruct w |].
  destruct w as [|w]; simpl in *.
  - inversion Hw; subst x. rewrite !filter_cons.
    destruct (decide (readyState (f k) ≠ CLOSED)); [congruence |].
    by destruct (decide (readyState k ≠ CLOSED)).
  - rewrite !filter_cons. specialize (IH w Hw Hk Hf).
    change (list_alter f w l) with (alter f w l).
    destruct (decide (readyState x ≠ CLOSED)); simpl; by rewrite <- IH.
Qed.

Lemma filter_delete_hit {A} (P : A → Prop) `{∀ x, Decision (P x)} k (l : list A) x :
  l !! k = Some x → P x →
  S (length (filter P (delete k l))) = length (filter P l).
Proof.
  revert k. induction l as [|y l IH]; intros k Hk Hx; [by destruct k |].
  destruct k as [|k]; simpl in *.
  - inversion Hk; subst y. by rewrite filter_cons_True.
  - rewrite !filter_cons. specialize (IH k Hk Hx).
    change (list_delete k l) with (delete k l).
    destruct (decide (P y)); simpl; by rewrite <- IH.
Qed.

Lemma live_moved_closed w k s :
  sockets s !! w = Some k → readyState k ≠ CLOSED →
  S (live (moved w CLOSED s)) = live s.
Proof. intros Hw Hk. by apply (live_alter_closed _ w (sockets s) k). Qed.

Lemma live_moved_open w s :
  readyState <$> sockets s !! w = Some CONNECTING →
  live (moved w OPEN s) = live s.
Proof.
  intros Hw. apply live_alter_same. intros k Hk. rewrite Hk in Hw.
  simpl in *. split; [intros _; congruence | done].
Qed.

Lemma live_unlistened w s : live (unlistened w s) = live s.
Proof. by apply live_alter_same. Qed.

Lemma sockets_reconnect s : sockets (state_of (reconnect s)) = sockets s.
Proof. by destruct (reconnect_cases s) as [-> | [-> | [_ ->]]]. Qed.

Lemma live_reconnect s : live (state_of (reconnect s)) = live s.
Proof. unfold live. by rewrite sockets_reconnect. Qed.

Lemma settled_live s :
  settled s → (0 < live s)%nat → pending_reconnects s = 0%nat.
Proof. intros [_ H] Hl. lia. Qed.

(** How a close event leaves the sockets. *)
Lemma step_Close_live w s :
  live (state_of (step rejects (Close w) s)) = live (moved w CLOSED s).
Proof.
  unfold step, set_readyState. rewrite bind_modify_state. fold (moved w CLOSED s).
  destruct (fire_state w (onClose w) (moved w CLOSED s)) as [-> | ->]; [| reflexivity].
  by rewrite onClose_state, live_reconnect, live_unlistened.
Qed.

Lemma step_Error_sockets w e s :
  sockets (state_of (step rejects (Error w e CLOSED) s)) = sockets (moved w CLOSED s).
Proof.
  unfold step, set_readyState. rewrite bind_modify_state. fold (moved w CLOSED s).
  destruct (fire_state w (onError w e) (moved w CLOSED s)) as [-> | ->]; [| reflexivity].
  rewrite onError_state. case_bool_decide; [| reflexivity].
  by rewrite sockets_reconnect.
Qed.

(** One task of a possible life keeps the session settled. *)
Lemma task_settled t s :
  settled s → possible s t →
  settled (state_of (run rejects (inputs_of t) s)).
Proof.
  intros Hs Ht. pose proof Hs as [Hone Hsum].
  destruct t as [w|w e|w|w data|k]; simpl inputs_of;
    rewrite !state_run_cons, state_run_nil.
  - (* opens *)
    assert (pending_reconnects s = 0%nat) as Hnone.
    { apply settled_live; [exact Hs |]. simpl in Ht.
      destruct (sockets s !! w) as [k|] eqn:Hw; [| discriminate].
      rewrite <- (live_moved_closed w k s Hw); [lia |].
      simpl in Ht. congruence. }
    split; [by apply step_one_pending |].
    unfold step, set_readyState. rewrite bind_modify_state. fold (moved w OPEN s).
    destruct (fire_state w onOpen (moved w OPEN s)) as [-> | ->].
    + unfold onOpen, send. unfold_monad. simpl.
      destruct (readyState <$> _) as [[]|]; simpl;
        (change (pending_reconnects s + live (moved w OPEN s) ≤ 1)%nat;
         by rewrite live_moved_open).
    + change (pending_reconnects s + live (moved w OPEN s) ≤ 1)%nat.
      by rewrite live_moved_open.
  - (* fails *)
    destruct Ht as (k & Hw & Hk).
    assert (pending_reconnects s = 0%nat) as Hnone.
    { apply settled_live; [exact Hs |]. rewrite <- (live_moved_closed w k s Hw Hk). lia. }
    set (s1 := state_of (step rejects (Error w e CLOSED) s)).
    assert (one_pending s1) as Hone1 by (by apply step_one_pending).
    assert (sockets s1 = sockets (moved w CLOSED s)) as Hsock1
      by apply step_Error_sockets.
    assert (live s1 = 0%nat) as Hlive1.
    { unfold live. rewrite Hsock1. fold (live (moved w CLOSED s)).
      pose proof (live_moved_closed w k s Hw Hk). lia. }
    split; [by apply step_one_pending |].
    assert (live (state_of (step rejects (Close w) s1)) = 0%nat) as Hlive2.
    { rewrite step_Close_live.
      assert (live (moved w CLOSED s1) = live s1) as ->; [| exact Hlive1].
      apply live_alter_same. intros k' Hk'. rewrite Hsock1 in Hk'. simpl in Hk'.
      rewrite list_lookup_alter_eq, Hw in Hk'. inversion Hk'. simpl. tauto. }
    rewrite Hlive2.
    destruct (step_one_pending (Close w) s1 (λ H, False_rect _ (Bool.diff_false_true H)) Hone1).
    lia.
  - (* closes *)
    destruct Ht as (k & Hw & Hk).
    split; [by apply step_one_pending |].
    rewrite step_Close_live.
    pose proof (live_moved_closed w k s Hw Hk).
    destruct (step_one_pending (Close w) s (λ H, False_rect _ (Bool.diff_false_true H)) Hone).
    lia.
  - (* receives *)
    split; [by apply step_one_pending |].
    unfold step.
    destruct (fire_state w (onMessage rejects data) s) as [-> | ->]; [| exact Hsum].
    rewrite onMessage_handle.
    destruct (dispatched_same_transport rejects _ _ (handle_dispatched rejects data s))
      as (_ & Hk & Ht' & _).
    unfold pending_reconnects, live. by rewrite Hk, Ht'.
  - (* expires *)
    split; [by apply step_one_pending |].
    unfold step, connect_callback, connect, event_callback, send. unfold_monad. simpl.
    destruct (timers s !! k) as [[d|c a d]|] eqn:Hk; simpl; [| | exact Hsum].
    + unfold pending_reconnects, live in *. simpl.
      pose proof (filter_delete_hit (λ t, is_ConnectTimer t = true) k (timers s)
                    (ConnectTimer d) Hk eq_refl).
      rewrite filter_app, length_app. simpl. lia.
    + pose proof (filter_delete_length (λ t, is_ConnectTimer t = true) k (timers s)).
      destruct (readyState <$> _) as [[]|]; simpl;
        unfold pending_reconnects, live in *; simpl; lia.
Qed.

Lemma run_settled ts s :
  settled s → plausible rejects ts s →
  settled (state_of (run rejects (mjoin (inputs_of <$> ts)) s)).
Proof.
  revert s. induction ts as [|t ts IH]; intros s Hs Hts; [exact Hs |].
  destruct Hts as [Ht Hts].
  rewrite fmap_cons. change (mjoin (inputs_of t :: (inputs_of <$> ts)))
    with (inputs_of t ++ mjoin (inputs_of <$> ts)).
  rewrite run_app. simpl. apply IH; [| exact Hts]. by apply task_settled.
Qed.

End Pending.

Lemma new_Signaling_settled network peers :
  settled (new_Signaling network peers).1.
Proof. split; [split; [cbv; lia | reflexivity] | cbv; lia]. Qed.

(** C9: a call of [reconnect] while the [reconnecting] flag is set, or
    while the application is closing the session, does nothing: no event,
    no timer, no change of the counter or of anything else. A call that
    schedules a connection sets the flag and adds one to the counter. So
    [reconnect] never adds a second pending reconnect to one that is
    pending; and in every run of a new session in which sockets live as
    sockets do (they open while connecting, fail or close once), at most
    one reconnect is pending at any time, and none while a socket is
    live. *)
Theorem reconnect_is_guarded rejects s :
  (reconnecting s = true ∨ closing (network s) = true →
     reconnect s = (Returned tt, s, [])) ∧
  (reconnecting s = false → closing (network s) = false →
     reconnectAttempt s ≤ 42 →
     reconnect s =
       (Returned tt, rescheduled s, SetTimeout <$> reconnect_timers (reconnectAttempt s)) ∧
     reconnecting (rescheduled s) = true ∧
     reconnectAttempt (rescheduled s) = reconnectAttempt s + 1 ∧
     pending_reconnects (rescheduled s) = S (pending_reconnects s)) ∧
  (one_pending s → one_pending (state_of (reconnect s))) ∧
  (∀ network peers, settled (new_Signaling network peers).1) ∧
  (∀ tasks, settled s → plausible rejects tasks s →
     settled (state_of (run rejects (mjoin (inputs_of <$> tasks)) s))).
Proof.
  split; [| split; [| split; [| split]]].
  - apply reconnect_noop.
  - intros Hr Hc Ha. split; [by apply reconnect_schedules |].
    split; [reflexivity | split; [reflexivity | apply pending_rescheduled]].
  - apply reconnect_one_pending.
  - apply new_Signaling_settled.
  - intros tasks. apply run_settled.
Qed.

Lemma reconnect_is_guarded_witness :
  reconnect (set_reconnecting true fresh) =
    (Returned tt, set_reconnecting true fresh, []) ∧
  reconnect fresh =
    (Returned tt, rescheduled fresh, SetTimeout <$> reconnect_timers 0) ∧
  one_pending (state_of (reconnect (rescheduled fresh))) ∧
  settled (state_of (run reliable
    (mjoin (inputs_of <$> [Fails 0%nat (ErrorEvent "refused"); Expires 1%nat;
                           Opens 1%nat; Closes 1%nat]))
    fresh)).
Proof.
  assert (settled fresh) as Hfresh by apply new_Signaling_settled.
  assert (one_pending (rescheduled fresh)) as Hresch
    by (split; [vm_compute; lia | discriminate]).
  split; [| split; [| split]].
  - apply (proj1 (reconnect_is_guarded reliable (set_reconnecting true fresh))).
    left. reflexivity.
  - apply (proj1 (proj2 (reconnect_is_guarded reliable fresh)));
      [reflexivity | reflexivity | by vm_compute].
  - apply (proj1 (proj2 (proj2 (reconnect_is_guarded reliable (rescheduled fresh))))).
    exact Hresch.
  - apply (proj2 (proj2 (proj2 (proj2 (reconnect_is_guarded reliable fresh))))).
    + exact Hfresh.
    + split; [| split; [| split; [| split]]]; try exact I.
      * eexists. split; [reflexivity | discriminate].
      * reflexivity.
      * eexists. split; [reflexivity | discriminate].
Defined.

(** ** Errors nobody listens to *)

(** C4 does not hold of the code: with no observer of [signalingerror],
    the error of a server [error] packet is also written to the console,
    as the socket errors of [onError] and [onClose] are, but the
    unknown-error of the [catch] of [handleSignalingMessage] and the
    socket-error of a [reconnect] that gives up are only emitted, to
    nobody. *)
Theorem unknown_error_is_not_printed rejects s reason msg :
  listenerCount_signalingerror (network s) = 0%nat →
  handleSignalingMessage rejects (Packet (ErrorPacket msg)) s =
    (Returned tt, s,
     [received (Some "error");
      NetworkEmit (signalingerror (mkSignalingError server_error msg None));
      ConsoleError (mkSignalingError server_error msg None)]) ∧
  handleSignalingMessage rejects (Malformed reason) s =
    (Returned tt, s, [unknown reason]) ∧
  filter (λ e, is_ConsoleError e = true)
    (effects_of (handleSignalingMessage rejects (Malformed reason) s)) = [] ∧
  (closing (network s) = false → reconnecting s = false →
   42 < reconnectAttempt s →
     reconnect s = (Returned tt, s, giving_up) ∧
     filter (λ e, is_ConsoleError e = true) (effects_of (reconnect s)) = []).
Proof.
  intros Hn. split; [| split; [| split]].
  - exec. by rewrite Hn.
  - apply handle_malformed.
  - reflexivity.
  - intros Hc Hr Ha. rewrite (reconnect_gives_up s Hr Hc Ha). by split.
Qed.

Lemma unknown_error_is_not_printed_witness :
  listenerCount_signalingerror (network fresh) = 0%nat ∧
  effects_of (handleSignalingMessage reliable (Malformed "Unexpected token") fresh) =
    [unknown "Unexpected token"] ∧
  effects_of (reconnect (set_reconnectAttempt 43 fresh)) = giving_up.
Proof.
  split; [reflexivity | split].
  - pose proof (unknown_error_is_not_printed reliable fresh "Unexpected token" "" eq_refl)
      as (_ & -> & _).
    reflexivity.
  - pose proof (unknown_error_is_not_printed reliable (set_reconnectAttempt 43 fresh)
                  "" "" eq_refl) as (_ & _ & _ & H).
    destruct H as [-> _]; [reflexivity | reflexivity | by vm_compute | reflexivity].
Defined.

(** * Further properties of the session *)

(** ** Negotiation packets of frames dispatched one at a time *)

Section Conservation.

Variable rejects : Call → option Exn.
Variable A : string.
Hypothesis delivers : ∀ p, rejects (OnSignalingMessage A p) = None.

Lemma deliveries_other id e :
  id ≠ A → Forall (λ x, ∃ p, x = deliver id p) e → deliveries A e = [].
Proof.
  intros Hne. induction 1 as [|x e [p ->] _ IH]; [reflexivity |].
  unfold deliveries in *. simpl.
  destruct (decide (id = A)); [done | exact IH].
Qed.

Lemma handle_conserves data s :
  replay_invariant A s →
  deliveries A (effects_of (handleSignalingMessage rejects data s))
    ++ buffered (state_of (handleSignalingMessage rejects data s)) A =
  buffered s A ++ negotiations A [data].
Proof.
  intros Hinv.
  destruct data as [reason| |type H|p]; try (simpl; by rewrite app_nil_r).
  destruct p as [game i|game l peer c a d|error|id|lobby_|id polite|id
                |source candidate|source description|credentials].
  - simpl. by rewrite app_nil_r.
  - simpl. by rewrite app_nil_r.
  - exec. destruct (bool_decide _); simpl; by rewrite app_nil_r.
  - exec. destruct (receivedID s); simpl; [by rewrite app_nil_r |].
    destruct (decide (id = "")); simpl; by rewrite app_nil_r.
  - exec. destruct (decide (lobby_ = "")); simpl; by rewrite app_nil_r.
  - (* connect *)
    unfold negotiations. simpl. rewrite app_nil_r.
    destruct (decide (receivedID s = Some id)) as [Hself|Hself].
    { rewrite (handle_connect_self rejects s id polite Hself). reflexivity. }
    destruct (rejects (AddPeer id polite)) as [x|] eqn:Hadd.
    { exec. destruct (decide (receivedID s = Some id)); [done |].
      rewrite Hadd. reflexivity. }
    destruct (decide (id = A)) as [->|Hne].
    + rewrite (handle_connect rejects s A polite Hself Hadd delivers). simpl.
      change (deliveries A (deliver A <$> buffered s A) ++ buffered
        (set_replayQueue (delete A (replayQueue s))
           (set_connections (<[A:=mkPeer polite]> (connections s)) s)) A = buffered s A).
      rewrite deliveries_same. unfold buffered at 2. simpl.
      rewrite lookup_delete_eq. simpl. by rewrite app_nil_r.
    + exec. destruct (decide (receivedID s = Some id)); [done |].
      rewrite Hadd. simpl.
      match goal with |- context [for_of ?q (replay rejects id) ?st] =>
        destruct (replay_loop rejects id q st) as (r & e & -> & He & [->|(p & x & -> & Hp)])
      end; simpl.
      * rewrite app_nil_r. change (deliveries A e ++ buffered
          (set_replayQueue (delete id (replayQueue s))
             (set_connections (<[id:=mkPeer polite]> (connections s)) s)) A = buffered s A).
        rewrite (deliveries_other id e Hne He). unfold buffered. simpl.
        by rewrite lookup_delete_ne.
      * change (deliveries A (e ++ [unknown x]) ++ buffered s A = buffered s A).
        by rewrite deliveries_app, (deliveries_other id e Hne He).
  - (* disconnect *)
    exec. destruct (connections s !! id); simpl; [| by rewrite app_nil_r].
    destruct (rejects (PeerClose id)); simpl; by rewrite app_nil_r.
  - (* candidate *)
    unfold negotiations. simpl.
    destruct (bool_decide_reflect (source = A)) as [->|Hne].
    + destruct (connections s !! A) as [peer|] eqn:Hc.
      * rewrite (handle_negotiation_delivered rejects s A _ peer); simpl;
          [| by apply bool_decide_eq_true | exact Hc | apply delivers].
        unfold deliveries. simpl. destruct (decide (A = A)); [| done].
        unfold buffered. by rewrite (Hinv (mk_is_Some _ _ Hc)).
      * rewrite (handle_negotiation_buffered rejects s A); simpl;
          [| by apply bool_decide_eq_true | exact Hc].
        unfold buffered at 1. simpl. by rewrite lookup_insert_eq.
    + rewrite app_nil_r. exec. destruct (connections s !! source); simpl.
      * unfold deliveries.
        destruct (rejects (OnSignalingMessage source _)); simpl;
          destruct (decide (source = A)); done.
      * unfold buffered. simpl. by rewrite lookup_insert_ne.
  - (* description *)
    unfold negotiations. simpl.
    destruct (bool_decide_reflect (source = A)) as [->|Hne].
    + destruct (connections s !! A) as [peer|] eqn:Hc.
      * rewrite (handle_negotiation_delivered rejects s A _ peer); simpl;
          [| by apply bool_decide_eq_true | exact Hc | apply delivers].
        unfold deliveries. simpl. destruct (decide (A = A)); [| done].
        unfold buffered. by rewrite (Hinv (mk_is_Some _ _ Hc)).
      * rewrite (handle_negotiation_buffered rejects s A); simpl;
          [| by apply bool_decide_eq_true | exact Hc].
        unfold buffered at 1. simpl. by rewrite lookup_insert_eq.
    + rewrite app_nil_r. exec. destruct (connections s !! source); simpl.
      * unfold deliveries.
        destruct (rejects (OnSignalingMessage source _)); simpl;
          destruct (decide (source = A)); done.
      * unfold buffered. simpl. by rewrite lookup_insert_ne.
  - simpl. by rewrite app_nil_r.
Qed.

Lemma negotiations_cons data l :
  negotiations A (data :: l) = negotiations A [data] ++ negotiations A l.
Proof. apply (omap_app _ [data] l). Qed.

Lemma dispatch_all_conserves l s :
  replay_invariant A s →
  deliveries A (effects_of (dispatch_all rejects l s))
    ++ buffered (state_of (dispatch_all rejects l s)) A =
  buffered s A ++ negotiations A l.
Proof.
  revert s. induction l as [|data l IH]; intros s Hinv.
  - simpl. by rewrite app_nil_r.
  - rewrite dispatch_all_cons, negotiations_cons. simpl.
    rewrite deliveries_app, <- app_assoc, IH.
    + rewrite app_assoc, (handle_conserves data s Hinv), <- app_assoc.
      reflexivity.
    + eapply dispatched_replay_invariant;
        [exact delivers | apply handle_dispatched | exact Hinv].
Qed.

End Conservation.

(** X1: when frames are dispatched one at a time, the handler of each
    having finished before the next frame arrives, and whether or not
    peers can be registered, the negotiation packets of a source [A] whose
    deliveries do not fail are each either delivered to the peer once or
    still in the replay queue, and in the order they arrived: the packets
    delivered, followed by the packets buffered, are the packets that were
    buffered at first followed by the packets received. No handler is
    left suspended. *)
Theorem negotiation_packets_are_conserved rejects A frames s :
  (∀ p, rejects (OnSignalingMessage A p) = None) →
  replay_invariant A s →
  let r := one_at_a_time rejects frames (s, []) in
  deliveries A r.2 ++ buffered r.1.1 A = buffered s A ++ negotiations A frames ∧
  r.1.2 = [].
Proof.
  intros Hok Hinv r. subst r. rewrite one_at_a_time_dispatch_all. cbn [fst snd].
  split; [by apply dispatch_all_conserves | reflexivity].
Qed.

Lemma negotiation_packets_are_conserved_witness :
  let frames :=
    [Packet (CandidatePacket "Q" "c1"); Packet (DescriptionPacket "R" "offer");
     Packet (ConnectPacket "Q" false); Packet (CandidatePacket "Q" "c2")] in
  let r := one_at_a_time reliable frames (fresh, []) in
  deliveries "Q" r.2 ++ buffered r.1.1 "Q" =
    [CandidatePacket "Q" "c1"; CandidatePacket "Q" "c2"].
Proof.
  intros frames r.
  destruct (negotiation_packets_are_conserved reliable "Q" frames fresh (λ _, eq_refl))
    as [Hkept _].
  - intros [peer Hpeer]. discriminate.
  - exact Hkept.
Defined.

(** ** What a frame leaves alone *)

Section Frames.

Variable rejects : Call → option Exn.

Lemma handle_other_peer B data s :
  concerns B data = false →
  connections (state_of (handleSignalingMessage rejects data s)) !! B = connections s !! B ∧
  replayQueue (state_of (handleSignalingMessage rejects data s)) !! B = replayQueue s !! B ∧
  Forall (λ e, names B e = false) (effects_of (handleSignalingMessage rejects data s)).
Proof.
  intros HB.
  destruct data as [reason| |type H|p]; try by repeat constructor.
  destruct p as [game i|game l peer c a d|error|id|lobby_|id polite|id
                |source candidate|source description|credentials];
    simpl in HB; try apply bool_decide_eq_false in HB.
  - by repeat constructor.
  - by repeat constructor.
  - exec. destruct (bool_decide _); by repeat constructor.
  - exec. destruct (receivedID s); simpl; [by repeat constructor |].
    destruct (decide (id = "")); by repeat constructor.
  - exec. destruct (decide (lobby_ = "")); by repeat constructor.
  - exec. destruct (decide (receivedID s = Some id)); simpl; [by repeat constructor |].
    destruct (rejects (AddPeer id polite)); simpl.
    { split; [done | split; [done |]]. repeat constructor. simpl.
      by apply bool_decide_eq_false. }
    match goal with |- context [for_of ?q (replay rejects id) ?st] =>
      destruct (replay_loop rejects id q st) as (r & e & -> & He & [->|(p' & x & -> & Hp)])
    end; simpl.
    + rewrite lookup_insert_ne, lookup_delete_ne by done.
      split; [done | split; [done |]].
      repeat (constructor; [simpl; by try apply bool_decide_eq_false |]).
      rewrite app_nil_r. eapply Forall_impl; [exact He |].
      intros ? [p0 ->]. simpl. by apply bool_decide_eq_false.
    + rewrite lookup_insert_ne by done.
      split; [done | split; [done |]].
      repeat (constructor; [simpl; by try apply bool_decide_eq_false |]).
      apply Forall_app. split; [| by repeat constructor].
      eapply Forall_impl; [exact He |].
      intros ? [p0 ->]. simpl. by apply bool_decide_eq_false.
  - exec. destruct (connections s !! id); simpl; [| by repeat constructor].
    destruct (rejects (PeerClose id)); simpl;
      (split; [done | split; [done |]]);
      repeat (constructor; [simpl; by try apply bool_decide_eq_false |]); constructor.
  - exec. destruct (connections s !! source); simpl.
    + destruct (rejects (OnSignalingMessage source _)); simpl;
        (split; [done | split; [done |]]);
        repeat (constructor; [simpl; by try apply bool_decide_eq_false |]); constructor.
    + rewrite lookup_insert_ne by done. by repeat constructor.
  - exec. destruct (connections s !! source); simpl.
    + destruct (rejects (OnSignalingMessage source _)); simpl;
        (split; [done | split; [done |]]);
        repeat (constructor; [simpl; by try apply bool_decide_eq_false |]); constructor.
    + rewrite lookup_insert_ne by done. by repeat constructor.
  - by repeat constructor.
Qed.

Lemma handle_unchanged data s :
  may_change_session data = false →
  state_of (handleSignalingMessage rejects data s) = s.
Proof.
  intros Hd.
  destruct data as [reason| |type H|p]; try reflexivity.
  destruct p; try discriminate; try reflexivity; exec.
  - by destruct (bool_decide _).
  - destruct (connections s !! id); simpl; [| reflexivity].
    by destruct (rejects (PeerClose id)).
Qed.

(** The replay loop up to the first packet the peer rejects. *)
Lemma replay_loop_interrupted id q1 p q2 x s peer :
  connections s !! id = Some peer →
  Forall (λ p, rejects (OnSignalingMessage id p) = None) q1 →
  rejects (OnSignalingMessage id p) = Some x →
  for_of (q1 ++ p :: q2) (replay rejects id) s =
    (Thrown x, s, (deliver id <$> q1) ++ [deliver id p]).
Proof.
  intros Hpeer Hq1 Hp. induction Hq1 as [|p1 q1 Hp1 _ IH]; simpl.
  - unfold bind at 1, replay at 1. exec. rewrite Hpeer, Hp. reflexivity.
  - unfold bind at 1, replay at 1. exec. rewrite Hpeer, Hp1. simpl.
    rewrite IH. reflexivity.
Qed.

End Frames.

(** X2: a frame that does not name peer [B] (as the id of a [connect] or
    [disconnect] packet, or as the source of a [candidate] or
    [description] packet) leaves the registry entry and the replay queue
    of [B] as they were, and makes no call that names [B]: no [_addPeer],
    no delivery, no [close]. *)
Theorem other_peers_are_left_alone rejects B data s :
  concerns B data = false →
  connections (state_of (handleSignalingMessage rejects data s)) !! B = connections s !! B ∧
  replayQueue (state_of (handleSignalingMessage rejects data s)) !! B = replayQueue s !! B ∧
  Forall (λ e, names B e = false) (effects_of (handleSignalingMessage rejects data s)).
Proof. apply handle_other_peer. Qed.

Lemma other_peers_are_left_alone_witness :
  let s := state_of (handleSignalingMessage reliable
                       (Packet (CandidatePacket "R" "c")) fresh) in
  replayQueue (state_of (handleSignalingMessage reliable
                           (Packet (ConnectPacket "Q" true)) s)) !! "R" =
    Some [CandidatePacket "R" "c"].
Proof.
  intros s.
  rewrite (proj1 (proj2 (other_peers_are_left_alone reliable "R"
             (Packet (ConnectPacket "Q" true)) s eq_refl))).
  reflexivity.
Defined.

(** X3: only a [welcome], [joined], [connect], [candidate] or
    [description] packet can change the state of the session: an [error],
    [disconnect] or [credentials] packet, an inbound [hello] or [event]
    packet, a value of another type, [null] and a frame that is not JSON
    leave every field as it was, also when the peer asked to close
    throws. *)
Theorem other_frames_change_nothing rejects data s :
  may_change_session data = false →
  state_of (handleSignalingMessage rejects data s) = s.
Proof. apply handle_unchanged. Qed.

Lemma other_frames_change_nothing_witness :
  state_of (handleSignalingMessage (λ _, Some "InvalidStateError")
              (Packet (DisconnectPacket "Q"))
              (set_connections {[ "Q" := mkPeer true ]} fresh)) =
    set_connections {[ "Q" := mkPeer true ]} fresh.
Proof.
  apply (other_frames_change_nothing (λ _, Some "InvalidStateError")
           (Packet (DisconnectPacket "Q"))).
  reflexivity.
Defined.



(** X5: when the peer rejects a buffered packet during the flush of a
    [connect] packet, the packets before it have been delivered, the
    failure is reported as one unknown-error, the peer stays registered
    and the whole queue stays, the packets already delivered included. *)
Theorem interrupted_flush_keeps_the_queue rejects A polite q1 p q2 x s :
  receivedID s ≠ Some A →
  rejects (AddPeer A polite) = None →
  buffered s A = q1 ++ p :: q2 →
  Forall (λ p, rejects (OnSignalingMessage A p) = None) q1 →
  rejects (OnSignalingMessage A p) = Some x →
  handleSignalingMessage rejects (Packet (ConnectPacket A polite)) s =
    (Returned tt,
     set_connections (<[A := mkPeer polite]> (connections s)) s,
     [received (Some "connect"); Invoke (AddPeer A polite)]
       ++ (deliver A <$> q1) ++ [deliver A p; unknown x]).
Proof.
  intros Hself Hadd Hq Hq1 Hp. exec.
  destruct (decide (receivedID s = Some A)); [done |].
  rewrite Hadd. simpl. fold (buffered s A). rewrite Hq.
  rewrite (replay_loop_interrupted rejects A q1 p q2 x _ (mkPeer polite));
    [| simpl; apply lookup_insert_eq | exact Hq1 | exact Hp].
  simpl. by rewrite <- app_assoc.
Qed.

Lemma interrupted_flush_keeps_the_queue_witness :
  let rejects := λ c, match c with
                      | OnSignalingMessage _ (CandidatePacket _ "c2") =>
                          Some "InvalidStateError"
                      | _ => None
                      end in
  let s := set_replayQueue
             {[ "Q" := [CandidatePacket "Q" "c1"; CandidatePacket "Q" "c2";
                        CandidatePacket "Q" "c3"] ]} fresh in
  let r := handleSignalingMessage rejects (Packet (ConnectPacket "Q" true)) s in
  effects_of r =
    [received (Some "connect"); Invoke (AddPeer "Q" true);
     deliver "Q" (CandidatePacket "Q" "c1"); deliver "Q" (CandidatePacket "Q" "c2");
     unknown "InvalidStateError"] ∧
  buffered (state_of r) "Q" = buffered s "Q".
Proof.
  intros rejects s r. unfold r.
  rewrite (interrupted_flush_keeps_the_queue rejects "Q" true
             [CandidatePacket "Q" "c1"] (CandidatePacket "Q" "c2")
             [CandidatePacket "Q" "c3"] "InvalidStateError" s);
    [by split | discriminate | reflexivity | reflexivity
    | by repeat constructor | reflexivity].
Defined.

(** X6: unlike [receivedID], [currentLobby] is assigned by every [joined]
    packet with a non-empty lobby: a sequence of [joined] packets leaves
    the last non-empty lobby, and the lobby it found if there is none. *)
Theorem last_joined_lobby_wins rejects ls s :
  currentLobby (state_of (dispatch_all rejects (Packet ∘ JoinedPacket <$> ls) s)) =
    match last_lobby ls with
    | Some l => Some l
    | None => currentLobby s
    end.
Proof.
  revert s. induction ls as [|l ls IH]; intros s; [reflexivity |].
  rewrite fmap_cons, dispatch_all_cons. simpl. rewrite IH.
  unfold last_lobby. destruct (decide (l = "")) as [->|Hne].
  - rewrite handle_joined_empty. simpl.
    by rewrite filter_cons_False by (intros H; by apply H).
  - rewrite filter_cons_True, last_cons by done.
    destruct (last (filter _ ls)); [reflexivity |].
    exec. by destruct (decide (l = "")).
Qed.

(** ** The counter and the delays *)

Lemma reconnect_within_bounds s :
  within_bounds s → within_bounds (state_of (reconnect s)).
Proof.
  intros [Ha Ht]. exec.
  destruct (reconnecting s || closing (network s)); simpl; [by split |].
  destruct (Z.ltb_spec 42 (reconnectAttempt s)); simpl; [by split |].
  split; [simpl; lia |]. simpl.
  apply Forall_app. split; [apply Forall_app; split; [exact Ht |] |];
    repeat constructor; simpl; lia.
Qed.

Section Bounds.

Variable rejects : Call → option Exn.

Lemma onOpen_state s : state_of (onOpen s) = opened s.
Proof.
  unfold onOpen, send. unfold_monad. simpl.
  by destruct (readyState <$> _) as [[]|].
Qed.

Lemma step_within_bounds i s :
  within_bounds s → within_bounds (state_of (step rejects i s)).
Proof.
  intros Hs. pose proof Hs as [Ha Ht].
  destruct i as [w|w e rs|w data|w|k]; unfold step.
  - unfold set_readyState. rewrite bind_modify_state. fold (moved w OPEN s).
    destruct (fire_state w onOpen (moved w OPEN s)) as [-> | ->]; [| exact Hs].
    rewrite onOpen_state. split; [simpl; lia | exact Ht].
  - unfold set_readyState. rewrite bind_modify_state. fold (moved w rs s).
    destruct (fire_state w (onError w e) (moved w rs s)) as [-> | ->]; [| exact Hs].
    rewrite onError_state. case_bool_decide; [| exact Hs].
    by apply reconnect_within_bounds.
  - destruct (fire_state w (onMessage rejects data) s) as [-> | ->]; [| exact Hs].
    rewrite onMessage_handle.
    destruct (dispatched_same_transport rejects _ _ (handle_dispatched rejects data s))
      as (_ & _ & Ht' & _ & Ha' & _).
    unfold within_bounds. by rewrite Ht', Ha'.
  - unfold set_readyState. rewrite bind_modify_state. fold (moved w CLOSED s).
    destruct (fire_state w (onClose w) (moved w CLOSED s)) as [-> | ->]; [| exact Hs].
    rewrite onClose_state. by apply reconnect_within_bounds.
  - unfold connect_callback, connect, event_callback, send. unfold_monad. simpl.
    destruct (timers s !! k) as [[d|c a d]|]; simpl; [| | exact Hs].
    + split; [exact Ha | by apply Forall_delete].
    + destruct (readyState <$> _) as [[]|]; simpl;
        (split; [exact Ha | by apply Forall_delete]).
Qed.

End Bounds.

(** X7: the attempt counter of a new session stays between 0 and 43, and
    the delay of every connect timer that is armed is drawn below a bound
    between 0 and 4200 ms, whatever events, frames and timers follow. *)
Theorem counter_and_delays_are_bounded rejects inputs s :
  (∀ network peers, within_bounds (new_Signaling network peers).1) ∧
  (within_bounds s → within_bounds (state_of (run rejects inputs s))).
Proof.
  split.
  - intros network peers. split; [simpl; lia | constructor].
  - apply (run_invariant rejects within_bounds).
    intros i s0. apply step_within_bounds.
Qed.

Lemma counter_and_delays_are_bounded_witness :
  within_bounds (state_of (run reliable (failures 43) fresh)).
Proof.
  apply (proj2 (counter_and_delays_are_bounded reliable (failures 43) fresh)).
  apply (proj1 (counter_and_delays_are_bounded reliable [] fresh)).
Defined.

(** ** What the transport leaves alone *)

Lemma same_session_trans s1 s2 s3 :
  same_session s1 s2 → same_session s2 s3 → same_session s1 s3.
Proof.
  intros (H1 & H2 & H3 & H4 & H5) (K1 & K2 & K3 & K4 & K5).
  repeat split; congruence.
Qed.

(** X8: the events of the sockets and the timers never touch what the
    session has negotiated: the identifier received, the lobby joined, the
    registry of peers and the replay queue are the same after any number
    of failures, reconnections and timers; only frames change them. *)
Theorem transport_events_keep_the_session rejects inputs s :
  Forall (λ i, is_frame i = false) inputs →
  same_session s (state_of (run rejects inputs s)).
Proof.
  intros Hin. revert s. induction Hin as [|i l Hi _ IH]; intros s.
  - by repeat split.
  - rewrite run_cons. simpl.
    eapply same_session_trans; [| apply IH].
    destruct (step_session rejects i s) as [H | (w & data & -> & _)];
      [exact H | discriminate].
Qed.

Lemma transport_events_keep_the_session_witness :
  let s := state_of (dispatch_all reliable
             [Packet (WelcomePacket "P"); Packet (JoinedPacket "L");
              Packet (CandidatePacket "Q" "c")] fresh) in
  let s' := state_of (run reliable (failures 3 ++ [Open 3%nat]) s) in
  receivedID s' = Some "P" ∧ currentLobby s' = Some "L" ∧
  buffered s' "Q" = [CandidatePacket "Q" "c"].
Proof.
  intros s s'.
  destruct (transport_events_keep_the_session reliable (failures 3 ++ [Open 3%nat]) s)
    as (H1 & H2 & _ & H4 & _); [by repeat constructor |].
  fold s' in H1, H2, H4. unfold buffered. rewrite H1, H2, H4. by repeat split.
Defined.

(** ** Closing *)

Section Closing.

Variable rejects : Call → option Exn.

Lemma step_Close_closing s w k :
  closing (network s) = true →
  sockets s !! w = Some k → listening k = true →
  step rejects (Close w) s = (Returned tt, unlistened w (moved w CLOSED s), []).
Proof.
  intros Hc Hw Hl. unfold step, set_readyState.
  unfold bind at 1, modify at 1. fold (moved w CLOSED s).
  rewrite (fire_listening w _ _ (mkWebSocket CLOSED (listening k)));
    [| simpl; by rewrite list_lookup_alter_eq, Hw | exact Hl].
  exec. rewrite Hc. simpl. by rewrite Hc, orb_true_r.
Qed.

Lemma step_Error_closing s w k e :
  closing (network s) = true →
  sockets s !! w = Some k → listening k = true →
  step rejects (Error w e CLOSED) s =
    (Returned tt, set_reconnecting false (moved w CLOSED s),
     reported (network s) (websocket_error e)).
Proof.
  intros Hc Hw Hl. unfold step, set_readyState.
  unfold bind at 1, modify at 1. fold (moved w CLOSED s).
  rewrite (fire_listening w _ _ (mkWebSocket CLOSED (listening k)));
    [| simpl; by rewrite list_lookup_alter_eq, Hw | exact Hl].
  exec. unfold reported.
  destruct (bool_decide (listenerCount_signalingerror _ = _)); simpl;
    rewrite list_lookup_alter_eq, Hw; simpl; rewrite Hc; reflexivity.
Qed.

Lemma step_Error_open s w k e rs :
  rs ≠ CLOSED →
  sockets s !! w = Some k → listening k = true →
  step rejects (Error w e rs) s =
    (Returned tt, moved w rs s, reported (network s) (websocket_error e)).
Proof.
  intros Hrs Hw Hl. unfold step, set_readyState.
  unfold bind at 1, modify at 1. fold (moved w rs s).
  rewrite (fire_listening w _ _ (mkWebSocket rs (listening k)));
    [| simpl; by rewrite list_lookup_alter_eq, Hw | exact Hl].
  exec. unfold reported.
  destruct (bool_decide (listenerCount_signalingerror _ = _)); simpl;
    rewrite list_lookup_alter_eq, Hw; simpl;
    (rewrite bool_decide_eq_false_2 by congruence); reflexivity.
Qed.

Lemma step_Open_state s w k :
  sockets s !! w = Some k → listening k = true →
  state_of (step rejects (Open w) s) = opened (moved w OPEN s).
Proof.
  intros Hw Hl. unfold step, set_readyState.
  rewrite bind_modify_state. fold (moved w OPEN s).
  rewrite (fire_listening w _ _ (mkWebSocket OPEN (listening k)));
    [| simpl; by rewrite list_lookup_alter_eq, Hw | exact Hl].
  apply onOpen_state.
Qed.

End Closing.

(** X9: while the application is closing the session, the close event of
    a socket is silent: no error is emitted, the listeners are removed and
    no reconnect is scheduled. An error event is still reported as a
    socket-error, and clears the [reconnecting] flag, but schedules no
    reconnect either. *)
Theorem closing_session_does_not_reconnect rejects s w k :
  closing (network s) = true →
  sockets s !! w = Some k → listening k = true →
  step rejects (Close w) s = (Returned tt, unlistened w (moved w CLOSED s), []) ∧
  (∀ e, step rejects (Error w e CLOSED) s =
     (Returned tt, set_reconnecting false (moved w CLOSED s),
      reported (network s) (websocket_error e))).
Proof.
  intros Hc Hw Hl. split.
  - by apply (step_Close_closing rejects s w k).
  - intros e. by apply (step_Error_closing rejects s w k).
Qed.

Lemma closing_session_does_not_reconnect_witness :
  effects_of (run reliable [Close 0%nat] (mark_closing fresh)) = [] ∧
  timers (state_of (run reliable [Error 0%nat refused CLOSED; Close 0%nat]
                      (mark_closing fresh))) = [].
Proof.
  split.
  - rewrite run_cons.
    rewrite (proj1 (closing_session_does_not_reconnect reliable (mark_closing fresh)
               0%nat (mkWebSocket CONNECTING true) eq_refl eq_refl eq_refl)).
    reflexivity.
  - rewrite run_cons.
    rewrite (proj2 (closing_session_does_not_reconnect reliable (mark_closing fresh)
               0%nat (mkWebSocket CONNECTING true) eq_refl eq_refl eq_refl)).
    reflexivity.
Defined.

(** X10: [close] only closes the session's socket; it does not mark the
    session as closing. Unless [network.closing] is set, the close event
    that follows is reported as a socket-error and a reconnect is
    scheduled, as for a transport that failed. *)
Theorem close_alone_reconnects rejects s k :
  sockets s !! ws s = Some k → listening k = true →
  closing (network s) = false → reconnecting s = false →
  reconnectAttempt s ≤ 42 →
  effects_of (close s) = [WsClose (ws s)] ∧
  network (state_of (close s)) = network s ∧
  effects_of (step rejects (Close (ws s)) (state_of (close s))) =
    reported (network s) socket_closed
      ++ (SetTimeout <$> reconnect_timers (reconnectAttempt s)) ∧
  pending_reconnects (state_of (step rejects (Close (ws s)) (state_of (close s)))) =
    S (pending_reconnects s).
Proof.
  intros Hw Hl Hc Hr Ha.
  assert (close s = (Returned tt,
            set_sockets (alter (λ k, match readyState k with
                                     | CONNECTING | OPEN => mkWebSocket CLOSING (listening k)
                                     | _ => k
                                     end) (ws s) (sockets s)) s,
            [WsClose (ws s)])) as Hclose by reflexivity.
  rewrite Hclose. cbn [state_of effects_of outcome_of fst snd].
  split; [reflexivity | split; [reflexivity |]].
  set (s1 := set_sockets _ s).
  assert (∃ k', sockets s1 !! ws s = Some k' ∧ listening k' = true) as (k' & Hw' & Hl').
  { unfold s1. simpl. rewrite list_lookup_alter_eq, Hw. simpl.
    eexists. split; [reflexivity |]. by destruct (readyState k). }
  rewrite (step_Close_schedules rejects s1 (ws s) k' Hw' Hl' Hc Hr Ha).
  split; [reflexivity |].
  cbn [state_of fst snd]. by rewrite pending_rescheduled.
Qed.

Lemma close_alone_reconnects_witness :
  effects_of (step reliable (Close 0%nat) (state_of (close fresh))) =
    reported quiet_network socket_closed ++ (SetTimeout <$> reconnect_timers 0).
Proof.
  apply (close_alone_reconnects reliable fresh (mkWebSocket CONNECTING true));
    [reflexivity | reflexivity | reflexivity | reflexivity | by vm_compute].
Defined.

(** X11: an error event of a socket that is not closed is reported as a
    socket-error and nothing else happens: no reconnect is scheduled, and
    the flag, the counter and the listeners are untouched. *)
Theorem error_of_open_socket_is_only_reported rejects s w k e rs :
  rs ≠ CLOSED →
  sockets s !! w = Some k → listening k = true →
  step rejects (Error w e rs) s =
    (Returned tt, moved w rs s, reported (network s) (websocket_error e)).
Proof. apply step_Error_open. Qed.

Lemma error_of_open_socket_is_only_reported_witness :
  step reliable (Error 0%nat refused OPEN) fresh =
    (Returned tt, moved 0 OPEN fresh, reported quiet_network (websocket_error refused)).
Proof.
  apply (error_of_open_socket_is_only_reported reliable fresh 0%nat
           (mkWebSocket CONNECTING true)); [discriminate | reflexivity | reflexivity].
Defined.

(** X12: giving up is not final for a socket that still opens: [onOpen]
    resets the counter, whatever it was, so that the next failure of the
    socket schedules a reconnect with no delay and counts as the first. *)
Theorem open_resets_the_counter rejects s w k :
  sockets s !! w = Some k → listening k = true →
  closing (network s) = false →
  let s1 := state_of (step rejects (Open w) s) in
  reconnectAttempt s1 = 0 ∧ reconnecting s1 = false ∧
  effects_of (step rejects (Close w) s1) =
    reported (network s) socket_closed ++ (SetTimeout <$> reconnect_timers 0) ∧
  reconnectAttempt (state_of (step rejects (Close w) s1)) = 1.
Proof.
  intros Hw Hl Hc s1.
  assert (s1 = opened (moved w OPEN s)) as -> by (by apply (step_Open_state rejects s w k)).
  split; [reflexivity | split; [reflexivity |]].
  rewrite (step_Close_schedules rejects (opened (moved w OPEN s)) w
             (mkWebSocket OPEN (listening k)));
    [by split | simpl; by rewrite list_lookup_alter_eq, Hw | exact Hl | exact Hc
    | reflexivity | simpl; lia].
Qed.

Lemma open_resets_the_counter_witness :
  let s := set_reconnectAttempt 43 fresh in
  reconnectAttempt (state_of (step reliable (Close 0%nat)
                                (state_of (step reliable (Open 0%nat) s)))) = 1.
Proof.
  intros s.
  apply (open_resets_the_counter reliable s 0%nat (mkWebSocket CONNECTING true));
    reflexivity.
Defined.

(** X13: a reconnect that is scheduled is not cancelled by the application
    marking the session as closing: when its timer expires a new socket is
    created and becomes the session's socket, and when that socket opens
    the [hello] is sent on it. *)
Theorem closing_does_not_cancel_a_reconnect rejects s k d :
  timers s !! k = Some (ConnectTimer d) →
  let w := length (sockets s) in
  run rejects [Timeout k; Open w] (mark_closing s) =
    (Returned tt, opened (moved w OPEN (reconnected k (mark_closing s))),
     WsNew w :: hello w s).
Proof.
  intros Hk w. by apply (run_Timeout_Open rejects (mark_closing s) k d).
Qed.

Lemma closing_does_not_cancel_a_reconnect_witness :
  effects_of (run reliable [Timeout 1%nat; Open 1%nat]
                (mark_closing (state_of (step reliable (Close 0%nat) fresh)))) =
    [WsNew 1; NetworkLog [Some "sending signaling packet:"; Some "hello"];
     WsSend 1 (HelloPacket "game" None)].
Proof.
  exact (f_equal effects_of
           (closing_does_not_cancel_a_reconnect reliable
              (state_of (step reliable (Close 0%nat) fresh)) 1%nat 0 eq_refl)).
Defined.

(** ** Sockets that have closed *)

Lemma quieter_refl s : quieter s s.
Proof. intros w k Hk. by exists k. Qed.

Lemma quieter_trans s1 s2 s3 : quieter s1 s2 → quieter s2 s3 → quieter s1 s3.
Proof.
  intros H12 H23 w k Hk.
  destruct (H12 w k Hk) as (k2 & Hk2 & Hl2).
  destruct (H23 w k2 Hk2) as (k3 & Hk3 & Hl3).
  exists k3. split; [exact Hk3 | auto].
Qed.

Lemma quieter_ext s1 s2 s2' :
  sockets s2' = sockets s2 → quieter s1 s2 → quieter s1 s2'.
Proof. intros Heq H w k Hk. rewrite Heq. by apply H. Qed.

Lemma quieter_alter (f : WebSocket → WebSocket) w s :
  (∀ k, listening k = false → listening (f k) = false) →
  quieter s (set_sockets (alter f w (sockets s)) s).
Proof.
  intros Hf w' k Hk. simpl. destruct (decide (w = w')) as [->|Hne].
  - rewrite list_lookup_alter_eq, Hk. simpl. eauto.
  - rewrite list_lookup_alter_ne by done. eauto.
Qed.

Lemma quieter_moved w rs s : quieter s (moved w rs s).
Proof. by apply quieter_alter. Qed.

Lemma quieter_unlistened w s : quieter s (unlistened w s).
Proof. by apply quieter_alter. Qed.

Lemma quieter_reconnect s : quieter s (state_of (reconnect s)).
Proof. eapply quieter_ext; [apply sockets_reconnect | apply quieter_refl]. Qed.

Lemma deaf_quieter w s s' : deaf w s → quieter s s' → deaf w s'.
Proof.
  intros (k & Hk & Hl) Hq. destruct (Hq w k Hk) as (k' & Hk' & Hl').
  exists k'. auto.
Qed.

Lemma fire_deaf w (listener : M unit) s :
  deaf w s → fire w listener s = (Returned tt, s, []).
Proof.
  intros (k & Hk & Hl). unfold fire, bind, get. simpl. by rewrite Hk, Hl.
Qed.

Lemma bind_modify_effects f (m : M unit) s :
  effects_of (bind (modify f) (λ _, m) s) = effects_of (m (f s)).
Proof. unfold bind, modify. by destruct (m (f s)) as [[? ?] ?]. Qed.

Section Deaf.

Variable rejects : Call → option Exn.

Lemma step_quieter i s : quieter s (state_of (step rejects i s)).
Proof.
  destruct i as [w|w e rs|w data|w|k]; unfold step.
  - unfold set_readyState. rewrite bind_modify_state. fold (moved w OPEN s).
    eapply quieter_trans; [apply quieter_moved |].
    destruct (fire_state w onOpen (moved w OPEN s)) as [-> | ->];
      [| apply quieter_refl].
    rewrite onOpen_state. intros w' k' Hk'. by exists k'.
  - unfold set_readyState. rewrite bind_modify_state. fold (moved w rs s).
    eapply quieter_trans; [apply quieter_moved |].
    destruct (fire_state w (onError w e) (moved w rs s)) as [-> | ->];
      [| apply quieter_refl].
    rewrite onError_state. case_bool_decide; [| apply quieter_refl].
    eapply quieter_ext; [apply sockets_reconnect |].
    intros w' k' Hk'. by exists k'.
  - destruct (fire_state w (onMessage rejects data) s) as [-> | ->];
      [| apply quieter_refl].
    rewrite onMessage_handle.
    destruct (dispatched_same_transport rejects _ _ (handle_dispatched rejects data s))
      as (_ & Hk & _).
    eapply quieter_ext; [exact Hk | apply quieter_refl].
  - unfold set_readyState. rewrite bind_modify_state. fold (moved w CLOSED s).
    eapply quieter_trans; [apply quieter_moved |].
    destruct (fire_state w (onClose w) (moved w CLOSED s)) as [-> | ->];
      [| apply quieter_refl].
    rewrite onClose_state.
    eapply quieter_trans; [apply quieter_unlistened | apply quieter_reconnect].
  - unfold connect_callback, connect, event_callback, send. unfold_monad. simpl.
    destruct (timers s !! k) as [[d|c a d]|]; simpl; [| | apply quieter_refl].
    + intros w k' Hk'. simpl. exists k'. split; [| done].
      by apply lookup_app_l_Some.
    + destruct (readyState <$> _) as [[]|]; simpl;
        (intros w k' Hk'; by exists k').
Qed.

Lemma run_quieter l s : quieter s (state_of (run rejects l s)).
Proof.
  revert s. induction l as [|i l IH]; intros s; [apply quieter_refl |].
  rewrite state_run_cons.
  eapply quieter_trans; [apply step_quieter | apply IH].
Qed.

Lemma step_Close_deaf w s :
  is_Some (sockets s !! w) → deaf w (state_of (step rejects (Close w) s)).
Proof.
  intros [k Hk]. unfold step, set_readyState.
  rewrite bind_modify_state. fold (moved w CLOSED s).
  assert (sockets (moved w CLOSED s) !! w = Some (mkWebSocket CLOSED (listening k))) as Hw.
  { simpl. by rewrite list_lookup_alter_eq, Hk. }
  destruct (listening k) eqn:Hl.
  - rewrite (fire_listening w _ _ _ Hw eq_refl), onClose_state.
    eapply deaf_quieter; [| apply quieter_reconnect].
    exists (mkWebSocket CLOSED false). split; [| reflexivity].
    simpl. rewrite !list_lookup_alter_eq, Hk. reflexivity.
  - rewrite fire_deaf; [| by eexists]. by eexists.
Qed.

Lemma deaf_step_silent w i s :
  deaf w s → socket_of i = Some w → effects_of (step rejects i s) = [].
Proof.
  intros Hd Hi.
  destruct i as [w'|w' e rs|w' data|w'|k]; simpl in Hi; inversion Hi; subst w';
    unfold step, set_readyState; rewrite ?bind_modify_effects.
  - fold (moved w OPEN s). rewrite fire_deaf; [reflexivity |].
    eapply deaf_quieter; [exact Hd | apply quieter_moved].
  - fold (moved w rs s). rewrite fire_deaf; [reflexivity |].
    eapply deaf_quieter; [exact Hd | apply quieter_moved].
  - by rewrite fire_deaf.
  - fold (moved w CLOSED s). rewrite fire_deaf; [reflexivity |].
    eapply deaf_quieter; [exact Hd | apply quieter_moved].
Qed.

End Deaf.

(** X14: [onClose] removes the listeners of its socket: whatever happens
    after the close event of a socket, a later event of that socket (open,
    error, frame or close) reaches no listener and has no effect. *)
Theorem closed_socket_is_ignored rejects s w l i :
  is_Some (sockets s !! w) → socket_of i = Some w →
  effects_of (step rejects i (state_of (run rejects (Close w :: l) s))) = [].
Proof.
  intros Hw Hi. apply (deaf_step_silent rejects w); [| exact Hi].
  rewrite state_run_cons.
  eapply deaf_quieter; [by apply step_Close_deaf | apply run_quieter].
Qed.

Lemma closed_socket_is_ignored_witness :
  effects_of (step reliable (Message 0%nat (Packet (WelcomePacket "P")))
                (state_of (run reliable [Close 0%nat; Timeout 1%nat; Open 1%nat] fresh))) =
    [].
Proof.
  apply (closed_socket_is_ignored reliable fresh 0%nat [Timeout 1%nat; Open 1%nat]);
    [by eexists | reflexivity].
Defined.

(** ** What is written to a socket *)

Lemma writable_lookup (l : list WebSocket) w rs :
  readyState <$> l !! w = Some rs → rs = CONNECTING ∨ rs = OPEN →
  ∃ k, l !! w = Some k ∧ (readyState k = CONNECTING ∨ readyState k = OPEN).
Proof.
  intros Hl Hrs. destruct (l !! w) as [k|]; [| discriminate].
  exists k. split; [reflexivity |]. simpl in Hl. inversion Hl. by subst rs.
Qed.

(** X15: a packet is only ever written to the socket that is the
    session's socket after the step, and only while that socket is
    connecting or open: nothing is written to a socket that is closing or
    closed, nor to a socket the session has replaced. *)
Theorem packets_go_to_the_live_socket rejects i s e w :
  e ∈ effects_of (step rejects i s) → written_to e = Some w →
  w = ws (state_of (step rejects i s)) ∧ writable w (state_of (step rejects i s)).
Proof.
  intros He Hw. destruct i as [w'|w' ev rs|w' data|w'|k]; unfold step in *.
  3: { destruct (fire_cases w' (onMessage rejects data) s) as [H | H];
         rewrite H in He; [| by apply elem_of_nil in He].
       rewrite onMessage_handle in He.
       pose proof (handle_effects rejects data s) as Hall.
       rewrite Forall_forall in Hall. specialize (Hall e He).
       destruct e; discriminate. }
  all: revert He; unfold fire, set_readyState; exec; branch; intros He;
    repeat match goal with
    | H : _ ∈ [] |- _ => by apply elem_of_nil in H
    | H : _ ∈ _ :: _ |- _ => apply elem_of_cons in H as [-> | H]
    | H : _ ∈ _ ++ _ |- _ => apply elem_of_app in H as [H | H]
    | H : written_to _ = Some _ |- _ => progress simpl in H; try discriminate H
    end;
    try (inversion Hw; subst; split; [reflexivity |];
         eapply writable_lookup; [eassumption | auto]).
Qed.

Lemma packets_go_to_the_live_socket_witness :
  0%nat = ws (state_of (step reliable (Open 0%nat) fresh)) ∧
  writable 0 (state_of (step reliable (Open 0%nat) fresh)).
Proof.
  apply (packets_go_to_the_live_socket reliable (Open 0%nat) fresh
           (WsSend 0 (HelloPacket "game" None)) 0%nat);
    [| reflexivity].
  apply list_elem_of_In. right. left. reflexivity.
Defined.

(** ** Analytics events *)

Section Events.

Variable rejects : Call → option Exn.

Lemma step_Timeout_event s k c a d :
  timers s !! k = Some (EventTimer c a d) →
  step rejects (Timeout k) s =
    (Returned tt, set_timers (delete k (timers s)) s,
     match readyState <$> sockets s !! ws s with
     | Some CONNECTING | Some OPEN =>
         [NetworkLog [Some "sending signaling packet:"; Some "event"];
          WsSend (ws s)
            (EventPacket (gameID (network s)) (currentLobby s)
               (network_id (network s)) c a d)]
     | _ => []
     end).
Proof.
  intros Hk. unfold step. exec. rewrite Hk. simpl.
  by destruct (readyState <$> _) as [[]|].
Qed.

End Events.

(** X16: [event] sends nothing by itself: it arms a timer, and the packet
    is built when the timer expires. The packet therefore carries the
    lobby the session is in when it is sent: a lobby joined between the
    call and the expiry is the one reported. *)
Theorem event_reports_the_lobby_at_sending rejects s category action data L k :
  L ≠ "" →
  sockets s !! ws s = Some k →
  readyState k = CONNECTING ∨ readyState k = OPEN →
  let s1 := state_of (event category action data s) in
  let s2 := state_of (handleSignalingMessage rejects (Packet (JoinedPacket L)) s1) in
  effects_of (event category action data s) = [SetTimeout (EventTimer category action data)] ∧
  effects_of (step rejects (Timeout (length (timers s))) s2) =
    [NetworkLog [Some "sending signaling packet:"; Some "event"];
     WsSend (ws s)
       (EventPacket (gameID (network s)) (Some L) (network_id (network s))
          category action data)].
Proof.
  intros HL Hk Hrs s1 s2. split; [reflexivity |].
  assert (s2 = set_currentLobby (Some L)
                 (set_timers (timers s ++ [EventTimer category action data]) s)) as ->.
  { unfold s2, s1. exec. by destruct (decide (L = "")). }
  rewrite (step_Timeout_event rejects _ _ category action data);
    [| simpl; by rewrite list_lookup_middle].
  simpl. rewrite Hk. simpl. by destruct Hrs as [-> | ->].
Qed.

Lemma event_reports_the_lobby_at_sending_witness :
  let s1 := state_of (event "game" "start" None fresh) in
  let s2 := state_of (handleSignalingMessage reliable (Packet (JoinedPacket "L")) s1) in
  effects_of (step reliable (Timeout 0%nat) s2) =
    [NetworkLog [Some "sending signaling packet:"; Some "event"];
     WsSend 0 (EventPacket "game" (Some "L") "" "game" "start" None)].
Proof.
  apply (event_reports_the_lobby_at_sending reliable fresh "game" "start" None "L"
           (mkWebSocket CONNECTING true));
    [discriminate | reflexivity | by left].
Defined.

(** X17: the "attempt-reconnect" event that [reconnect] arms when the
    session's socket has closed has its timer armed before the timer of
    the reconnect, and is written to no socket when its timer expires
    while the session's socket is the closed one still, the new socket not
    being created yet. *)
Theorem reconnect_event_is_dropped rejects s k :
  sockets s !! ws s = Some k → listening k = true →
  closing (network s) = false → reconnecting s = false →
  reconnectAttempt s ≤ 42 →
  let n := length (timers s) in
  let s1 := state_of (step rejects (Close (ws s)) s) in
  timers s1 = timers s ++ reconnect_timers (reconnectAttempt s) ∧
  ws s1 = ws s ∧
  effects_of (step rejects (Timeout n) s1) = [].
Proof.
  intros Hk Hl Hc Hr Ha n s1.
  assert (s1 = rescheduled (unlistened (ws s) (moved (ws s) CLOSED s))) as ->.
  { unfold s1. by rewrite (step_Close_schedules rejects s (ws s) k Hk Hl Hc Hr Ha). }
  split; [reflexivity | split; [reflexivity |]].
  rewrite (step_Timeout_event rejects _ _ "signaling" "attempt-reconnect" None);
    [| simpl; unfold reconnect_timers; by apply list_lookup_middle].
  simpl. by rewrite !list_lookup_alter_eq, Hk.
Qed.

Lemma reconnect_event_is_dropped_witness :
  let s1 := state_of (step reliable (Close 0%nat) fresh) in
  timers s1 = reconnect_timers 0 ∧
  ws s1 = 0%nat ∧
  effects_of (step reliable (Timeout 0%nat) s1) = [].
Proof.
  apply (reconnect_event_is_dropped reliable fresh (mkWebSocket CONNECTING true));
    [reflexivity | reflexivity | reflexivity | reflexivity | by vm_compute].
Defined.

(** ** Errors as text *)

Lemma append_bracket_inj (s1 s2 : string) : s1 +:+ "]" = s2 +:+ "]" → s1 = s2.
Proof.
  revert s2. induction s1 as [|a s1 IH]; intros [|b s2] H; simpl in H.
  - reflexivity.
  - inversion H as [[Ha Hs]]. destruct s2; discriminate.
  - inversion H as [[Ha Hs]]. destruct s1; discriminate.
  - inversion H as [[Ha Hs]]. f_equal. by apply IH.
Qed.

(** X18: [toString] renders an error as its type and its message between
    brackets and nothing else: two errors have the same text exactly when
    they have the same type and the same message, whatever DOM event they
    carry. *)
Theorem toString_tells_type_and_message e1 e2 :
  toString e1 = toString e2 ↔ etype e1 = etype e2 ∧ message e1 = message e2.
Proof.
  split.
  - unfold toString. intros H.
    destruct (etype e1), (etype e2); simpl in H; try discriminate H;
      (split; [reflexivity |]); apply append_bracket_inj;
      by inversion H.
  - intros [Ht Hm]. unfold toString. by rewrite Ht, Hm.
Qed.

Lemma toString_tells_type_and_message_witness :
  toString (websocket_error refused) = "[socket-error: unexpected websocket error]" ∧
  toString (websocket_error refused) =
    toString (mkSignalingError socket_error "unexpected websocket error" None).
Proof.
  split; [reflexivity |].
  apply (proj2 (toString_tells_type_and_message (websocket_error refused)
                  (mkSignalingError socket_error "unexpected websocket error" None))).
  by split.
Defined.
